(** * Entropy reconstruction and convergence analysis

    A shallow embedding of [plotting/convergence.py]: the reference
    density-of-states functions, the bin-entropy residual and its solver
    wrapper, the chain builder, the smoothness penalty and its optimizer,
    the moment-matching root function, the snapshot loading loop, the
    reference-model dispatch and the checkpoint loop.

    Conventions of the embedding.
    - A numpy [float64] is an [npfloat]: a real number, or one of the three
      exceptional values [+inf], [-inf], [nan].  Rounding, overflow,
      underflow and the sign of zero are not modelled; the exceptional
      results of [np.log], of division and of comparisons are.
    - A Python exception is the [Raise] arm of [result]; sequencing is the
      bind of that monad.
    - A one-dimensional array is a [list npfloat]; subscripts are Python
      integers ([Z]), negative ones counting from the end, and a subscript
      out of range raises [IndexError].
    - The scipy routines ([optimize.root], [optimize.root_scalar],
      [optimize.minimize_scalar]) are library code: they are variables of
      the sections below, and every statement holds for all of them. *)

From Stdlib Require Import Reals Lra ZArith Lia String Ascii List Sorted Permutation.
From stdpp Require Import base list strings gmap sorting.

(* ===================================================================== *)
(** * Part I: definitions *)
(* ===================================================================== *)

(** ** Python results *)

Inductive exn : Type :=
  | AssertionError
  | IndexError
  | KeyError
  | ValueError
  | TypeError.

Inductive result (A : Type) : Type :=
  | Ok (a : A)
  | Raise (e : exn).
Arguments Ok {A} a.
Arguments Raise {A} e.

#[export] Instance result_ret : MRet result := fun A a => Ok a.
#[export] Instance result_bind : MBind result := fun A B f m =>
  match m with
  | Ok a => f a
  | Raise e => Raise e
  end.

(** [for x in xs: s = body(x, s)], stopping at the first exception. *)
Fixpoint for_in {A St : Type} (xs : list A) (body : A -> St -> result St)
    (s : St) : result St :=
  match xs with
  | [] => Ok s
  | a :: rest => s' ← body a s; for_in rest body s'
  end.

(** ** numpy floats *)

Inductive npfloat : Type :=
  | Fin (r : R)
  | PInf
  | NInf
  | NaN.

Module Np.

Definition neg (a : npfloat) : npfloat :=
  match a with
  | Fin r => Fin (- r)
  | PInf => NInf
  | NInf => PInf
  | NaN => NaN
  end.

Definition add (a b : npfloat) : npfloat :=
  match a, b with
  | NaN, _ | _, NaN => NaN
  | Fin r, Fin s => Fin (r + s)
  | PInf, NInf | NInf, PInf => NaN
  | PInf, _ | _, PInf => PInf
  | NInf, _ | _, NInf => NInf
  end.

Definition sub (a b : npfloat) : npfloat := add a (neg b).

(** Sign of a real, for the products and quotients with an infinity. *)
Definition sgn (r : R) : comparison :=
  if Rlt_dec 0 r then Gt else if Rlt_dec r 0 then Lt else Eq.

Definition signed_inf (c : comparison) : npfloat :=
  match c with
  | Gt => PInf
  | Lt => NInf
  | Eq => NaN
  end.

Definition flip (c : comparison) : comparison :=
  match c with
  | Gt => Lt
  | Lt => Gt
  | Eq => Eq
  end.

Definition mul (a b : npfloat) : npfloat :=
  match a, b with
  | NaN, _ | _, NaN => NaN
  | Fin r, Fin s => Fin (r * s)
  | Fin r, PInf | PInf, Fin r => signed_inf (sgn r)
  | Fin r, NInf | NInf, Fin r => signed_inf (flip (sgn r))
  | PInf, PInf | NInf, NInf => PInf
  | PInf, NInf | NInf, PInf => NInf
  end.

(** numpy division: a zero divisor gives an infinity or [nan], it does
    not raise. *)
Definition div (a b : npfloat) : npfloat :=
  match a, b with
  | NaN, _ | _, NaN => NaN
  | Fin r, Fin s =>
      if Req_dec_T s 0 then signed_inf (sgn r) else Fin (r / s)
  | Fin _, PInf | Fin _, NInf => Fin 0
  | PInf, Fin s => if Rlt_dec s 0 then NInf else PInf
  | NInf, Fin s => if Rlt_dec s 0 then PInf else NInf
  | PInf, PInf | PInf, NInf | NInf, PInf | NInf, NInf => NaN
  end.

Definition abs (a : npfloat) : npfloat :=
  match a with
  | Fin r => Fin (Rabs r)
  | PInf | NInf => PInf
  | NaN => NaN
  end.

Definition exp (a : npfloat) : npfloat :=
  match a with
  | Fin r => Fin (Rtrigo_def.exp r)
  | PInf => PInf
  | NInf => Fin 0
  | NaN => NaN
  end.

(** [np.log]: [-inf] at zero, [nan] below it. *)
Definition log (a : npfloat) : npfloat :=
  match a with
  | Fin r =>
      if Rlt_dec 0 r then Fin (ln r)
      else if Req_dec_T r 0 then NInf else NaN
  | PInf => PInf
  | NInf | NaN => NaN
  end.

Definition sqrt (a : npfloat) : npfloat :=
  match a with
  | Fin r => if Rlt_dec r 0 then NaN else Fin (R_sqrt.sqrt r)
  | PInf => PInf
  | NInf | NaN => NaN
  end.

(** [a < b]; every comparison with [nan] is false. *)
Definition ltb (a b : npfloat) : bool :=
  match a, b with
  | NaN, _ | _, NaN => false
  | Fin r, Fin s => if Rlt_dec r s then true else false
  | NInf, NInf | PInf, _ | _, NInf => false
  | NInf, _ | _, PInf => true
  end.

Definition gtb (a b : npfloat) : bool := ltb b a.

Definition eqb (a b : npfloat) : bool :=
  match a, b with
  | Fin r, Fin s => if Req_dec_T r s then true else false
  | PInf, PInf | NInf, NInf => true
  | _, _ => false
  end.

(** [np.heaviside(x, h0)]. *)
Definition heaviside (a h0 : npfloat) : npfloat :=
  match a with
  | NaN => NaN
  | _ => if ltb a (Fin 0) then Fin 0
         else if eqb a (Fin 0) then h0 else Fin 1
  end.

(** [a ** n] for a literal exponent [n]. *)
Fixpoint pow (a : npfloat) (n : nat) : npfloat :=
  match n with
  | O => Fin 1
  | S O => a
  | S m => mul (pow a m) a
  end.

Definition pi : npfloat := Fin PI.

(** [np.zeros_like(a)] for a float array. *)
Definition zeros_like (a : list npfloat) : list npfloat :=
  map (fun _ => Fin 0) a.

(** [np.flip(a)] for a one-dimensional array. *)
Definition flip_array (a : list npfloat) : list npfloat := rev a.

End Np.

Declare Scope np_scope.
Delimit Scope np_scope with np.
Bind Scope np_scope with npfloat.
Infix "+" := Np.add : np_scope.
Infix "-" := Np.sub : np_scope.
Infix "*" := Np.mul : np_scope.
Infix "/" := Np.div : np_scope.
Notation "- a" := (Np.neg a) : np_scope.
Infix "<?" := Np.ltb : np_scope.
Infix ">?" := Np.gtb : np_scope.
Infix "=?" := Np.eqb : np_scope.

(** ** Python sequences *)

Module Py.

Definition len {A} (l : list A) : Z := Z.of_nat (length l).

(** The position a subscript [i] denotes in a sequence of length [n]. *)
Definition position (n : nat) (i : Z) : option nat :=
  if decide (0 <= i < Z.of_nat n)%Z then Some (Z.to_nat i)
  else if decide (- Z.of_nat n <= i < 0)%Z then Some (Z.to_nat (Z.of_nat n + i))
  else None.

(** [l[i]] *)
Definition getitem {A} (l : list A) (i : Z) : result A :=
  match position (length l) i with
  | Some k =>
      match l !! k with
      | Some v => Ok v
      | None => Raise IndexError
      end
  | None => Raise IndexError
  end.

(** [l[i] = v] *)
Definition setitem {A} (l : list A) (i : Z) (v : A) : result (list A) :=
  match position (length l) i with
  | Some k => Ok (<[k:=v]> l)
  | None => Raise IndexError
  end.

(** [range(n)] *)
Definition range (n : Z) : list Z :=
  map Z.of_nat (seq 0 (Z.to_nat n)).

(** [range(start, stop, -1)] *)
Definition range_down (start stop : Z) : list Z :=
  map (fun k => (start - Z.of_nat k)%Z) (seq 0 (Z.to_nat (start - stop))).

End Py.

Notation "l .[ i ]" := (Py.getitem l i%Z)
  (at level 1, i at level 200, left associativity, format "l .[ i ]").

(** ** Reference density-of-states functions (lines 34-49) *)

Infix "**" := Np.pow (at level 30, right associativity) : np_scope.

Section ReferenceLibrary.
Local Open Scope np_scope.

Definition linear_density_of_states (E : npfloat) : npfloat :=
  Np.heaviside E (Fin 0.5) * Np.heaviside (Fin 1 - E) (Fin 0.5).

Definition quadratic_density_of_states (E : npfloat) : npfloat :=
  Fin 1.5 * Np.sqrt E * Np.heaviside E (Fin 0) * Np.heaviside (Fin 1 - E) (Fin 0).

(** Reads the module-level [sigma].  [sigma] is a Python number there and
    [sigma**3] raises [OverflowError] when the cube is not a float; that
    exception is outside this model, which is meant for [sigma] below that
    range. *)
Definition gaussian_density_of_states (sigma : npfloat) (E : npfloat) : npfloat :=
  (Np.pi * (sigma ** 3) * Np.sqrt (Fin 32 * Np.log (Fin (-1) / E))) / (- E)
    / (Fin 4 * Np.pi / Fin 3).

Definition other_density_of_states (E : npfloat) : npfloat := Fin 0.

(** Reads the module-level [N] and [mean_erfinv_energy].  [N] is a Python
    number there, so [np.pi/N] raises [ZeroDivisionError] at [N = 0]; that
    exception is outside this model, which is meant for [N] other than
    zero. *)
Definition erfinv_density_of_states (N mean_erfinv_energy : npfloat)
    (E : npfloat) : npfloat :=
  Np.sqrt (Np.pi / N) * Np.exp ((- ((E - mean_erfinv_energy) ** 2)) / N).

(** Reads the module-level [a], [b], [e1], [e2]; falls off the end of the
    function (Python's [None]) when [E <= -e2]. *)
Definition piecewise_density_of_states (a b e1 e2 : npfloat)
    (E : npfloat) : option npfloat :=
  if E >? Fin 0 then
    Some ((b + (b - a) * Np.sqrt (E / e2 + Fin 1)) ** 2
          / (Fin 2 * e2 * Np.sqrt (E / e2 + Fin 1)))
  else if E >? - e2 then
    Some ((a ** 3 * Np.sqrt (E + e1) / Fin 2)
          + ((b - (b - a) * Np.sqrt (E / e2 + Fin 1)) ** 2
             / (Fin 2 * e2 * Np.sqrt (E / e2 + Fin 1)))
          + ((b + (b - a) * Np.sqrt (E / e2 + Fin 1)) ** 2
             / (Fin 2 * e2 * Np.sqrt (E / e2 + Fin 1))))
  else None.

End ReferenceLibrary.

(** ** Results returned by scipy *)

Module OptimizeResult.
(** What [optimize.root] returns: the final iterate and the flag that
    says whether the iteration converged. *)
Record t : Type := mk { x : list npfloat; success : bool }.
End OptimizeResult.

Module RootResults.
(** What [optimize.root_scalar] returns. *)
Record t : Type := mk { root : npfloat; converged : bool }.
End RootResults.

Module MinimizeResult.
(** What [optimize.minimize_scalar] returns. *)
Record t : Type := mk { x : npfloat; success : bool }.
End MinimizeResult.

(** ** Bin-entropy residual (lines 53-70) *)

Section Residual.
Local Open Scope np_scope.

(** [fn_entropy]: "the thing that should be zero".  The statements after
    the two [return]s are unreachable and have no counterpart here. *)
Definition fn_entropy (S_i_1 E_i_1 E_i lnw_i S_i : npfloat) : result npfloat :=
  let delta_E := E_i_1 - E_i in
  if negb (delta_E >? Fin 0) then Raise AssertionError else
  let delta_S := S_i_1 - S_i in
  let S_0 := S_i_1 in
  if Np.abs delta_S <? Fin 1e-14 then
    Ok (Np.log delta_E + S_0 - lnw_i)
  else
    Ok (Np.log delta_E + S_0
        - Np.log ((Np.exp delta_S - Fin 1) / delta_S) - lnw_i).

(** [fn_for_beta] (lines 128-131) *)
Definition fn_for_beta (x meanE_over_deltaE : npfloat) : npfloat :=
  if x <? Fin 1e-14 then
    Fin 0.5 * x - x * meanE_over_deltaE
  else
    x / (Fin 1 - Np.exp (- x)) - Fin 1 - x * meanE_over_deltaE.

(** [find_entropy_from_beta_and_lnw] (lines 147-150) *)
Definition find_entropy_from_beta_and_lnw (beta lnw deltaE : npfloat) : npfloat :=
  if Np.abs (beta * deltaE) <? Fin 1e-14 then
    lnw - Np.log deltaE
  else
    lnw - Np.log deltaE
      - Np.log ((Np.exp (beta * deltaE) - Fin 1) / (beta * deltaE)).

End Residual.

(** ** Solver, chain builder, penalty and optimizer (lines 79-145) *)

Section Engine.
Local Open Scope np_scope.

(** [optimize.root(fun, x0)]: the objective is called on a one-element
    vector, on which the arithmetic of [fn_entropy] acts elementwise; it
    is a scalar function here.  An exception of the objective or of the
    routine itself is the [Raise] arm. *)
Variable root : (npfloat -> result npfloat) -> list npfloat -> result OptimizeResult.t.

(** [optimize.root_scalar(f, x0=x0, x1=x1)] *)
Variable root_scalar : (npfloat -> npfloat) -> npfloat -> npfloat -> result RootResults.t.

(** [optimize.minimize_scalar(fun)] *)
Variable minimize_scalar : (npfloat -> result npfloat) -> result MinimizeResult.t.

Definition optimize_bin_entropy (i : Z) (E_bounds lnw : list npfloat)
    (S_i : npfloat) : result npfloat :=
  E_i_1 ← E_bounds.[i - 1];
  E_i ← E_bounds.[i];
  lnw_i ← lnw.[i];
  sol ← root (fun S_i_1 => fn_entropy S_i_1 E_i_1 E_i lnw_i S_i) [Fin 0];
  (OptimizeResult.x sol).[0].

(** One turn of the loop of [compute_entropy_given_Smin]:
    [entropy_boundaries[i-1] = optimize_bin_entropy(i, ..., entropy_boundaries[i])]. *)
Definition chain_step (energy_boundaries lnw : list npfloat) (i : Z)
    (entropy_boundaries : list npfloat) : result (list npfloat) :=
  S_i ← entropy_boundaries.[i];
  v ← optimize_bin_entropy i energy_boundaries lnw S_i;
  Py.setitem entropy_boundaries (i - 1) v.

Definition compute_entropy_given_Smin (Smin : npfloat)
    (energy_boundaries lnw : list npfloat) : result (list npfloat) :=
  let entropy_boundaries := Np.zeros_like energy_boundaries in
  entropy_boundaries ← Py.setitem entropy_boundaries (-1) Smin;
  for_in (Py.range_down (Py.len energy_boundaries - 1) 1)
    (chain_step energy_boundaries lnw)
    entropy_boundaries.

(** One turn of the loop of [entropy_boundary_badness]. *)
Definition badness_step (energy_boundaries entropy_boundaries : list npfloat)
    (i : Z) (badness : npfloat) : result npfloat :=
  e1 ← energy_boundaries.[i + 1];
  e0 ← energy_boundaries.[i];
  let de1 := e1 - e0 in
  e2 ← energy_boundaries.[i + 2];
  e1' ← energy_boundaries.[i + 1];
  let de2 := e2 - e1' in
  s1 ← entropy_boundaries.[i + 1];
  s0 ← entropy_boundaries.[i];
  let dS1 := s1 - s0 in
  s2 ← entropy_boundaries.[i + 2];
  s1' ← entropy_boundaries.[i + 1];
  let dS2 := s2 - s1' in
  Ok (badness + Np.abs ((dS2 / de2 - dS1 / de1) / (de2 + de1))).

Definition entropy_boundary_badness (Smin : npfloat)
    (energy_boundaries lnw : list npfloat) : result npfloat :=
  entropy_boundaries ← compute_entropy_given_Smin Smin energy_boundaries lnw;
  for_in (Py.range (Py.len energy_boundaries - 2))
    (badness_step energy_boundaries entropy_boundaries)
    (Fin 0).

Definition optimize_entropy (energy_boundaries lnw : list npfloat)
    : result (list npfloat) :=
  res ← minimize_scalar
          (fun Smin => entropy_boundary_badness Smin energy_boundaries lnw);
  let Smin := MinimizeResult.x res in
  compute_entropy_given_Smin Smin energy_boundaries lnw.

Definition find_beta_deltaE (meanE_over_deltaE : npfloat) : result npfloat :=
  let '(x0, x1) :=
    if meanE_over_deltaE =? Fin 0 then (Fin 1e-6, Fin (-1e-6))
    else (Fin 2 * meanE_over_deltaE, meanE_over_deltaE) in
  sol ← root_scalar (fun x => fn_for_beta x meanE_over_deltaE) x0 x1;
  Ok (RootResults.root sol).

End Engine.

(** ** Strings and paths *)

Module Str.

(** [needle in hay] *)
Fixpoint contains (needle hay : string) : bool :=
  String.prefix needle hay ||
  match hay with
  | EmptyString => false
  | String _ rest => contains needle rest
  end.

(** [s.rfind(c)] for a one-character [c]: the last position of [c], or -1. *)
Fixpoint rfind_from (c : ascii) (s : string) (i last : Z) : Z :=
  match s with
  | EmptyString => last
  | String a rest => rfind_from c rest (i + 1) (if Ascii.eqb a c then i else last)
  end.
Definition rfind (c : ascii) (s : string) : Z := rfind_from c s 0 (-1).

Definition chars (s : string) : list ascii := list_ascii_of_string s.
Definition of_chars (l : list ascii) : string := string_of_list_ascii l.

(** [s[:k]] and [s[k:]] for [k >= 0] *)
Definition upto (k : Z) (s : string) : string := of_chars (take (Z.to_nat k) (chars s)).
Definition from (k : Z) (s : string) : string := of_chars (drop (Z.to_nat k) (chars s)).

(** [s[:-5]] *)
Definition drop_last5 (s : string) : string :=
  upto (Z.of_nat (String.length s) - 5) s.

(** [os.path.basename(p)] *)
Definition basename (p : string) : string := from (rfind "/" p + 1) p.

(** [os.path.splitext(p)[0]]: cut at the last dot, when that dot lies in
    the last path component and some character before it there is not a
    dot. *)
Definition splitext_root (p : string) : string :=
  let sepIndex := rfind "/" p in
  let dotIndex := rfind "." p in
  if decide (sepIndex < dotIndex)%Z then
    let name := drop (Z.to_nat (sepIndex + 1)) (take (Z.to_nat dotIndex) (chars p)) in
    if existsb (fun a => negb (Ascii.eqb a ".")) name then upto dotIndex p else p
  else p.

Definition digit_value (a : ascii) : option N :=
  let n := N_of_ascii a in
  if ((48 <=? n) && (n <=? 57))%N then Some (n - 48)%N else None.

Fixpoint decimal_value (s : string) (acc : N) : option N :=
  match s with
  | EmptyString => Some acc
  | String a rest =>
      match digit_value a with
      | Some d => decimal_value rest (10 * acc + d)%N
      | None => None
      end
  end.

(** [float(s)] on an unsigned decimal integer literal, the way a move
    count is written.  The other spellings Python accepts (a sign, a
    fraction, an exponent, [inf], [nan], surrounding blanks) are outside
    this model, which answers [ValueError] for them as for any string
    that is not a number. *)
Definition float (s : string) : result npfloat :=
  match s with
  | EmptyString => Raise ValueError
  | _ =>
      match decimal_value s 0 with
      | Some n => Ok (Fin (IZR (Z.of_N n)))
      | None => Raise ValueError
      end
  end.

(** [sorted(l)] on strings: ascending in the order of [str], which
    compares character codes from the left. *)
Fixpoint insert (s : string) (l : list string) : list string :=
  match l with
  | [] => [s]
  | h :: t => if String.leb s h then s :: l else h :: insert s t
  end.
Definition sorted (l : list string) : list string := foldr insert [] l.

End Str.

(** ** Snapshot loading loop (lines 164-188) *)

(** What [np.loadtxt] returns for the boundary file: a zero-dimensional
    array when the file holds a single value, else a one-dimensional one.
    The mean-energy and log-weight files are taken to hold one-dimensional
    data. *)
Inductive ndarray : Type :=
  | Array0 (v : npfloat)
  | Array1 (a : list npfloat).

(** The entries the loop stores under [base] in its four dictionaries. *)
Record snapshot : Type := mk_snapshot {
  energy_boundaries : list npfloat;
  mean_energy : list npfloat;
  lnw : list npfloat;
  entropy_boundaries : list npfloat
}.

Section Loader.
Local Open Scope np_scope.

Variable root : (npfloat -> result npfloat) -> list npfloat -> result OptimizeResult.t.
Variable minimize_scalar : (npfloat -> result npfloat) -> result MinimizeResult.t.

(** Lines 164-168: drop the extension of a [.cbor] or [.yaml] argument. *)
Definition strip_extension (base : string) : string :=
  if Str.contains ".cbor" base || Str.contains ".yaml" base
  then Str.drop_last5 base else base.

(** Lines 171-188, for one [base], given the contents of its three data
    files. *)
Definition load_snapshot (energy_boundaries_dat : ndarray)
    (mean_energy_dat lnw_dat : list npfloat) : result snapshot :=
  let energy_boundaries :=
    match energy_boundaries_dat with
    | Array0 v => [v]
    | Array1 a => a
    end in
  first ← energy_boundaries.[0];
  last ← energy_boundaries.[-1];
  let '(energy_boundaries, mean_energy, lnw) :=
    if first <? last
    then (Np.flip_array energy_boundaries, Np.flip_array mean_energy_dat,
          Np.flip_array lnw_dat)
    else (energy_boundaries, mean_energy_dat, lnw_dat) in
  entropy_boundaries ← optimize_entropy root minimize_scalar energy_boundaries lnw;
  Ok (mk_snapshot energy_boundaries mean_energy lnw entropy_boundaries).

End Loader.

(** ** Reference-model dispatch (lines 207-235) *)

(** The run's metadata record, as [yaml.safe_load] gives it: a dictionary
    whose ['kind'] entry, when present, is text and whose other entries are
    the numeric parameters of the model.  A metadata file that is empty or
    holds something else than a mapping, on which the subscript ['kind']
    raises [TypeError], is outside this model. *)
Record system : Type := mk_system {
  kind : option string;
  params : gmap string npfloat
}.

(** The function bound to [exact_density_of_states], together with the
    module-level parameters the dispatch assigns right before binding it. *)
Inductive density_of_states : Type :=
  | Linear
  | Quadratic
  | Gaussian (sigma : npfloat)
  | Erfinv (mean_erfinv_energy N : npfloat)
  | Pieces (a b e1 e2 : npfloat)
  | Other.

Section Dispatch.

(** [systems[base]['kind']] *)
Definition get_kind (s : system) : result string :=
  match kind s with
  | Some k => Ok k
  | None => Raise KeyError
  end.

(** [systems[base][key]] for a parameter *)
Definition get_param (s : system) (key : string) : result npfloat :=
  match params s !! key with
  | Some v => Ok v
  | None => Raise KeyError
  end.

Definition exact_density_of_states (base : string) (s : system)
    : result density_of_states :=
  if Str.contains "linear" base then Ok Linear
  else if Str.contains "quadratic" base then Ok Quadratic
  else
    kind ← get_kind s;
    if String.eqb kind "Gaussian" then
      sigma ← get_param s "sigma";
      Ok (Gaussian sigma)
    else if String.eqb kind "Erfinv" then
      mean_erfinv_energy ← get_param s "mean_energy";
      N ← get_param s "N";
      Ok (Erfinv mean_erfinv_energy N)
    else if String.eqb kind "Pieces" then
      a ← get_param s "a";
      b ← get_param s "b";
      e1 ← get_param s "e1";
      e2 ← get_param s "e2";
      Ok (Pieces a b e1 e2)
    else Ok Other.

(** The selected function at one energy; [None] is Python's [None], which
    only the piecewise function can return. *)
Definition call (f : density_of_states) (E : npfloat) : option npfloat :=
  match f with
  | Linear => Some (linear_density_of_states E)
  | Quadratic => Some (quadratic_density_of_states E)
  | Gaussian sigma => Some (gaussian_density_of_states sigma E)
  | Erfinv mean_erfinv_energy N =>
      Some (erfinv_density_of_states N mean_erfinv_energy E)
  | Pieces a b e1 e2 => piecewise_density_of_states a b e1 e2 E
  | Other => Some (other_density_of_states E)
  end.

(** Line 235 at one energy of the grid: [np.log(exact_density_of_states(E))]. *)
Definition exact_entropy (f : density_of_states) (E : npfloat) : option npfloat :=
  option_map Np.log (call f E).

End Dispatch.

(** ** Checkpoint loop (lines 237-271) *)

Section Tracker.

(** Lines 245-270 for one checkpoint stem: loading its three files,
    [compute.linear_entropy] (a module outside this file) and the largest
    absolute difference to the exact entropy. *)
Variable max_error : string -> result npfloat.

(** The loop over [sorted(glob.glob(base+'/*.cbor'))], given what the
    glob found; returns [(moves[base], error[base])]. *)
Definition convergence_series (found : list string)
    : result (list npfloat * list npfloat) :=
  for_in (Str.sorted found)
    (fun f '(moves, error) =>
       let f := Str.splitext_root f in
       mymove ← Str.float (Str.basename f);
       let moves := moves ++ [mymove] in
       e ← max_error f;
       Ok (moves, error ++ [e]))
    ([], []).

End Tracker.

(** ** The statements the properties below are compared with *)

Section Statements.
Local Open Scope np_scope.

(** The residual of bin [i] written with the known boundary's entropy
    [S_i] in the place of [S_0], for a bin width [delta_E]. *)
Definition residual_with_known_S0 (delta_E S_i_1 lnw_i S_i : npfloat) : npfloat :=
  let delta_S := S_i_1 - S_i in
  let S_0 := S_i in
  Np.log delta_E + S_0 - Np.log ((Np.exp delta_S - Fin 1) / delta_S) - lnw_i.

(** The jump of the slope [dS/dE] across one interior boundary, divided
    by the sum of the two adjacent bin widths. *)
Definition slope_jump (e0 e1 e2 s0 s1 s2 : npfloat) : npfloat :=
  let de1 := e1 - e0 in
  let de2 := e2 - e1 in
  let dS1 := s1 - s0 in
  let dS2 := s2 - s1 in
  Np.abs ((dS2 / de2 - dS1 / de1) / (de1 + de2)).

(** One [slope_jump] per interior boundary, in the order of the arrays. *)
Fixpoint interior_jumps (E S : list npfloat) : list npfloat :=
  match E, S with
  | e0 :: ((e1 :: e2 :: _) as E'), s0 :: ((s1 :: s2 :: _) as S') =>
      slope_jump e0 e1 e2 s0 s1 s2 :: interior_jumps E' S'
  | _, _ => []
  end.

(** Their sum, accumulated from zero in that order. *)
Definition smoothness_penalty (E S : list npfloat) : npfloat :=
  fold_left Np.add (interior_jumps E S) (Fin 0).

(** What the loading loop hands on, once the order is normalised. *)
Definition descending_order (energy_boundaries mean_energy lnw : list npfloat)
    (first last : npfloat) : list npfloat * list npfloat * list npfloat :=
  if first <? last then (rev energy_boundaries, rev mean_energy, rev lnw)
  else (energy_boundaries, mean_energy, lnw).

Definition one_dimensional (a : ndarray) : list npfloat :=
  match a with
  | Array0 v => [v]
  | Array1 l => l
  end.

(** The path of the checkpoint [name] of the run directory [dir]. *)
Definition checkpoint_path (dir name : string) : string :=
  dir +:+ String "/" (name +:+ ".cbor").

(** A name written with decimal digits only. *)
Definition all_digits (s : string) : Prop :=
  List.Forall (fun a => Str.digit_value a <> None) (Str.chars s).

(** The number such a name denotes. *)
Definition move_count (name : string) : N :=
  default 0%N (Str.decimal_value name 0).

End Statements.

(** ** Stand-ins for the scipy routines, for concrete runs *)

Section StandIns.

(** A root finder that gives up at once: it hands back its starting point
    and reports failure. *)
Definition stalled_root (f : npfloat -> result npfloat) (x0 : list npfloat)
    : result OptimizeResult.t :=
  Ok (OptimizeResult.mk x0 false).

(** A root finder that reports success at its starting point. *)
Definition settled_root (f : npfloat -> result npfloat) (x0 : list npfloat)
    : result OptimizeResult.t :=
  Ok (OptimizeResult.mk x0 true).

(** A root finder that answers [v] whatever it is asked, and reports
    success. *)
Definition fixed_root (v : npfloat) (f : npfloat -> result npfloat)
    (x0 : list npfloat) : result OptimizeResult.t :=
  Ok (OptimizeResult.mk [v] true).

Definition stalled_root_scalar (f : npfloat -> npfloat) (x0 x1 : npfloat)
    : result RootResults.t :=
  Ok (RootResults.mk x1 false).

Definition settled_root_scalar (f : npfloat -> npfloat) (x0 x1 : npfloat)
    : result RootResults.t :=
  Ok (RootResults.mk x1 true).

(** A minimizer that evaluates its objective once, at [guess], and
    returns that point. *)
Definition one_shot_minimizer (guess : npfloat) (f : npfloat -> result npfloat)
    : result MinimizeResult.t :=
  _ ← f guess; Ok (MinimizeResult.mk guess true).

(** The solver evaluates the objective at its starting point, as
    [optimize.root] does before anything else, and lets an exception of the
    objective through. *)
Definition solver_probes
    (root : (npfloat -> result npfloat) -> list npfloat -> result OptimizeResult.t)
    : Prop :=
  forall f e, f (Fin 0) = Raise e -> root f [Fin 0] = Raise e.

(** A root finder that evaluates the objective once, at its starting
    point, and stays there. *)
Definition probing_root (f : npfloat -> result npfloat) (x0 : list npfloat)
    : result OptimizeResult.t :=
  match x0 with
  | [] => Ok (OptimizeResult.mk [] true)
  | a :: _ => _ ← f a; Ok (OptimizeResult.mk x0 true)
  end.

(** Overwrite the convergence flag of whatever a solver returns. *)
Definition with_success (flag : bool)
    (root : (npfloat -> result npfloat) -> list npfloat -> result OptimizeResult.t)
    (f : npfloat -> result npfloat) (x0 : list npfloat) : result OptimizeResult.t :=
  sol ← root f x0; Ok (OptimizeResult.mk (OptimizeResult.x sol) flag).

Definition with_converged (flag : bool)
    (root_scalar : (npfloat -> npfloat) -> npfloat -> npfloat -> result RootResults.t)
    (f : npfloat -> npfloat) (x0 x1 : npfloat) : result RootResults.t :=
  sol ← root_scalar f x0 x1; Ok (RootResults.mk (RootResults.root sol) flag).

End StandIns.

(* ===================================================================== *)
(** * Part II: properties *)
(* ===================================================================== *)

(** ** The result monad *)

Lemma bind_Ok {A B} (a : A) (k : A -> result B) : (Ok a ≫= k) = k a.
Proof. reflexivity. Qed.

Lemma bind_Raise {A B} (e : exn) (k : A -> result B) : (Raise e ≫= k) = Raise e.
Proof. reflexivity. Qed.

Lemma bind_Ok_inv {A B} (m : result A) (k : A -> result B) (b : B) :
  (m ≫= k) = Ok b -> exists a, m = Ok a /\ k a = Ok b.
Proof. destruct m as [a|e]; simpl; [eauto | discriminate]. Qed.

(** ** numpy floats *)

Module NpFacts.

Lemma ltb_Fin_true r s : (r < s)%R -> Np.ltb (Fin r) (Fin s) = true.
Proof. intros H. simpl. destruct (Rlt_dec r s); [reflexivity | contradiction]. Qed.

Lemma ltb_Fin_false r s : ~ (r < s)%R -> Np.ltb (Fin r) (Fin s) = false.
Proof. intros H. simpl. destruct (Rlt_dec r s); [contradiction | reflexivity]. Qed.

Lemma ltb_Fin_iff r s : Np.ltb (Fin r) (Fin s) = true <-> (r < s)%R.
Proof.
  split; [| apply ltb_Fin_true].
  simpl. destruct (Rlt_dec r s); [trivial | discriminate].
Qed.

Lemma log_Fin_pos r : (0 < r)%R -> Np.log (Fin r) = Fin (ln r).
Proof. intros H. simpl. destruct (Rlt_dec 0 r); [reflexivity | contradiction]. Qed.

Lemma log_zero : Np.log (Fin 0) = NInf.
Proof.
  simpl. destruct (Rlt_dec 0 0) as [H|_]; [lra |].
  destruct (Req_dec_T 0 0) as [_|H]; [reflexivity | lra].
Qed.

Lemma log_Fin_neg r : (r < 0)%R -> Np.log (Fin r) = NaN.
Proof.
  intros H. simpl. destruct (Rlt_dec 0 r); [lra |].
  destruct (Req_dec_T r 0); [lra | reflexivity].
Qed.

Lemma div_Fin r s : s <> 0%R -> Np.div (Fin r) (Fin s) = Fin (r / s).
Proof. intros H. simpl. destruct (Req_dec_T s 0); [contradiction | reflexivity]. Qed.

Lemma add_comm a b : Np.add a b = Np.add b a.
Proof. destruct a, b; simpl; try reflexivity. f_equal. lra. Qed.

(** [exp d - 1] has the sign of [d]. *)
Lemma expm1_over_pos d : d <> 0%R -> (0 < (exp d - 1) / d)%R.
Proof.
  intros Hd. destruct (Rlt_dec 0 d) as [Hpos|Hneg].
  - apply Rdiv_lt_0_compat; [| exact Hpos].
    pose proof (exp_ineq1 d Hd). lra.
  - assert (d < 0)%R as Hlt by lra.
    pose proof (exp_increasing d 0 Hlt) as Hexp. rewrite exp_0 in Hexp.
    replace ((exp d - 1) / d)%R with ((1 - exp d) / (- d))%R by (field; exact Hd).
    apply Rdiv_lt_0_compat; lra.
Qed.

End NpFacts.

(** ** Bin-entropy residual *)

Section ResidualProperties.
Local Open Scope np_scope.

Lemma sub_Fin r s : Fin r - Fin s = Fin (r - s).
Proof. reflexivity. Qed.

Lemma add_Fin r s : Fin r + Fin s = Fin (r + s).
Proof. reflexivity. Qed.

(** The assertion of [fn_entropy]: a bin that is not of positive width in
    the frame [E_i_1 - E_i] is refused. *)
Lemma fn_entropy_asserts_width S_i_1 E_i_1 E_i lnw_i S_i :
  (E_i_1 - E_i >? Fin 0) = false ->
  fn_entropy S_i_1 E_i_1 E_i lnw_i S_i = Raise AssertionError.
Proof. intros H. unfold fn_entropy. rewrite H. reflexivity. Qed.

(** The two branches of [fn_entropy], on arbitrary floats. *)
Lemma fn_entropy_limiting_branch S_i_1 E_i_1 E_i lnw_i S_i :
  (E_i_1 - E_i >? Fin 0) = true ->
  (Np.abs (S_i_1 - S_i) <? Fin 1e-14) = true ->
  fn_entropy S_i_1 E_i_1 E_i lnw_i S_i =
    Ok (Np.log (E_i_1 - E_i) + S_i_1 - lnw_i).
Proof. intros HE HS. unfold fn_entropy. rewrite HE, HS. reflexivity. Qed.

Lemma fn_entropy_general_branch S_i_1 E_i_1 E_i lnw_i S_i :
  (E_i_1 - E_i >? Fin 0) = true ->
  (Np.abs (S_i_1 - S_i) <? Fin 1e-14) = false ->
  fn_entropy S_i_1 E_i_1 E_i lnw_i S_i =
    Ok (Np.log (E_i_1 - E_i) + S_i_1
        - Np.log ((Np.exp (S_i_1 - S_i) - Fin 1) / (S_i_1 - S_i)) - lnw_i).
Proof. intros HE HS. unfold fn_entropy. rewrite HE, HS. reflexivity. Qed.

(** On finite inputs every term of the general branch is finite. *)
Lemma fn_entropy_finite (S_prev E_prev E_i lnw_i S_i : R) :
  (E_i < E_prev)%R ->
  (1e-14 <= Rabs (S_prev - S_i))%R ->
  fn_entropy (Fin S_prev) (Fin E_prev) (Fin E_i) (Fin lnw_i) (Fin S_i) =
    Ok (Fin (ln (E_prev - E_i) + S_prev
             - ln ((exp (S_prev - S_i) - 1) / (S_prev - S_i)) - lnw_i)).
Proof.
  intros HE HS.
  assert (S_prev - S_i <> 0)%R as Hd.
  { intros H0. rewrite H0, Rabs_R0 in HS. lra. }
  rewrite fn_entropy_general_branch.
  - rewrite !sub_Fin. cbn [Np.exp]. rewrite sub_Fin.
    rewrite NpFacts.div_Fin by exact Hd.
    rewrite !NpFacts.log_Fin_pos.
    + reflexivity.
    + apply NpFacts.expm1_over_pos; exact Hd.
    + lra.
  - rewrite sub_Fin. apply NpFacts.ltb_Fin_true. lra.
  - rewrite sub_Fin. apply NpFacts.ltb_Fin_false. lra.
Qed.

(** C1 (as the code has it): for finite inputs with [E_{i-1} > E_i] and
    [|dS| >= 1e-14], the residual is
    [log(dE) + S_0 - log((e^dS - 1)/dS) - lnw_i] with
    [dE = E_{i-1} - E_i], [dS = S_{i-1} - S_i] and [S_0 = S_{i-1}], the
    entropy of the boundary being solved for; every term is finite. *)
Theorem fn_entropy_residual (S_prev E_prev E_i lnw_i S_i : R) :
  (E_i < E_prev)%R ->
  (1e-14 <= Rabs (S_prev - S_i))%R ->
  fn_entropy (Fin S_prev) (Fin E_prev) (Fin E_i) (Fin lnw_i) (Fin S_i) =
    Ok (Np.log (Fin E_prev - Fin E_i) + Fin S_prev
        - Np.log ((Np.exp (Fin S_prev - Fin S_i) - Fin 1) / (Fin S_prev - Fin S_i))
        - Fin lnw_i)
  /\ Np.log (Fin E_prev - Fin E_i) + Fin S_prev
     - Np.log ((Np.exp (Fin S_prev - Fin S_i) - Fin 1) / (Fin S_prev - Fin S_i))
     - Fin lnw_i
     = Fin (ln (E_prev - E_i) + S_prev
            - ln ((exp (S_prev - S_i) - 1) / (S_prev - S_i)) - lnw_i).
Proof.
  intros HE HS.
  pose proof (fn_entropy_finite S_prev E_prev E_i lnw_i S_i HE HS) as Hfin.
  rewrite fn_entropy_general_branch in Hfin.
  - split; [| injection Hfin as Hfin; exact Hfin].
    apply fn_entropy_general_branch.
    + rewrite sub_Fin. apply NpFacts.ltb_Fin_true. lra.
    + rewrite sub_Fin. apply NpFacts.ltb_Fin_false. lra.
  - rewrite sub_Fin. apply NpFacts.ltb_Fin_true. lra.
  - rewrite sub_Fin. apply NpFacts.ltb_Fin_false. lra.
Qed.

Lemma fn_entropy_residual_witness :
  ((0 < 1)%R /\ (1e-14 <= Rabs (1 - 0))%R) /\
  fn_entropy (Fin 1) (Fin 1) (Fin 0) (Fin 0) (Fin 0) =
    Ok (Np.log (Fin 1 - Fin 0) + Fin 1
        - Np.log ((Np.exp (Fin 1 - Fin 0) - Fin 1) / (Fin 1 - Fin 0)) - Fin 0).
Proof.
  assert ((0 < 1)%R /\ (1e-14 <= Rabs (1 - 0))%R) as [H1 H2].
  { split; [lra | rewrite Rabs_pos_eq; lra]. }
  split; [split; assumption |].
  exact (proj1 (fn_entropy_residual 1 1 0 0 0 H1 H2)).
Defined.

(** C1 as stated fails: at [S_{i-1} = 1], [E_{i-1} = 1], [E_i = 0],
    [lnw_i = 0], [S_i = 0] (so [E_{i-1} > E_i] and [|dS| = 1]) the
    residual of the code is neither the stated formula with
    [dE = E_i - E_{i-1}] (whose logarithm is [nan] there) nor the stated
    formula with the positive width in its place: the code adds
    [S_{i-1}] where the statement adds [S_i]. *)
Lemma fn_entropy_not_known_S0 :
  exists v,
    fn_entropy (Fin 1) (Fin 1) (Fin 0) (Fin 0) (Fin 0) = Ok v /\
    v <> residual_with_known_S0 (Fin 0 - Fin 1) (Fin 1) (Fin 0) (Fin 0) /\
    v <> residual_with_known_S0 (Fin 1 - Fin 0) (Fin 1) (Fin 0) (Fin 0).
Proof.
  eexists. split.
  { apply (fn_entropy_finite 1 1 0 0 0); [lra | rewrite Rabs_pos_eq; lra]. }
  assert (1 - 0 <> 0)%R as Hd by lra.
  pose proof (NpFacts.expm1_over_pos _ Hd) as Hpos.
  unfold residual_with_known_S0. rewrite !sub_Fin. cbn [Np.exp]. rewrite sub_Fin.
  rewrite NpFacts.div_Fin by exact Hd.
  rewrite (NpFacts.log_Fin_pos _ Hpos).
  split.
  - rewrite NpFacts.log_Fin_neg by lra. discriminate.
  - rewrite NpFacts.log_Fin_pos by lra.
    rewrite !add_Fin, !sub_Fin.
    intros Heq. injection Heq as Heq. lra.
Qed.

End ResidualProperties.

(** ** Python sequences *)

Module PyFacts.

Lemma position_nonneg n i :
  (0 <= i < Z.of_nat n)%Z -> Py.position n i = Some (Z.to_nat i).
Proof. intros H. unfold Py.position. rewrite decide_True by exact H. reflexivity. Qed.

Lemma position_last n : (0 < n)%nat -> Py.position n (-1) = Some (n - 1)%nat.
Proof.
  intros H. unfold Py.position.
  rewrite decide_False by lia. rewrite decide_True by lia.
  f_equal. lia.
Qed.

Lemma position_out n i :
  (Z.of_nat n <= i)%Z -> Py.position n i = None.
Proof.
  intros H. unfold Py.position.
  rewrite decide_False by lia. rewrite decide_False by lia. reflexivity.
Qed.

Lemma position_lt n i k : Py.position n i = Some k -> (k < n)%nat.
Proof.
  unfold Py.position. intros H.
  destruct (decide (0 <= i < Z.of_nat n)%Z).
  - injection H as <-. lia.
  - destruct (decide (- Z.of_nat n <= i < 0)%Z); [| discriminate].
    injection H as <-. lia.
Qed.

Lemma getitem_nat {A} (l : list A) (k : nat) (v : A) :
  l !! k = Some v -> Py.getitem l (Z.of_nat k) = Ok v.
Proof.
  intros H. unfold Py.getitem.
  pose proof (lookup_lt_Some _ _ _ H) as Hlt.
  rewrite position_nonneg by lia. rewrite Nat2Z.id, H. reflexivity.
Qed.

Lemma getitem_in_range {A} (l : list A) (i : Z) :
  (0 <= i < Py.len l)%Z -> exists v, Py.getitem l i = Ok v /\ l !! Z.to_nat i = Some v.
Proof.
  unfold Py.len. intros H.
  destruct (lookup_lt_is_Some_2 l (Z.to_nat i)) as [v Hv]; [lia |].
  exists v. split; [| exact Hv].
  unfold Py.getitem. rewrite position_nonneg by exact H. rewrite Hv. reflexivity.
Qed.

Lemma getitem_out_of_range {A} (l : list A) (i : Z) :
  (Py.len l <= i)%Z -> Py.getitem l i = Raise IndexError.
Proof.
  unfold Py.len, Py.getitem. intros H. rewrite position_out by exact H. reflexivity.
Qed.

Lemma getitem_last {A} (l : list A) (v : A) :
  l !! (length l - 1)%nat = Some v -> Py.getitem l (-1) = Ok v.
Proof.
  intros H. pose proof (lookup_lt_Some _ _ _ H) as Hlt.
  unfold Py.getitem. rewrite position_last by lia. rewrite H. reflexivity.
Qed.

Lemma setitem_in_range {A} (l : list A) (i : Z) (v : A) :
  (0 <= i < Py.len l)%Z -> Py.setitem l i v = Ok (<[Z.to_nat i := v]> l).
Proof.
  unfold Py.len, Py.setitem. intros H. rewrite position_nonneg by exact H. reflexivity.
Qed.

Lemma setitem_length {A} (l l' : list A) (i : Z) (v : A) :
  Py.setitem l i v = Ok l' -> length l' = length l.
Proof.
  unfold Py.setitem. destruct (Py.position (length l) i); [| discriminate].
  intros H. injection H as <-. apply length_insert.
Qed.

Lemma range_down_bounds start stop :
  List.Forall (fun i => (stop < i <= start)%Z) (Py.range_down start stop).
Proof.
  apply List.Forall_forall. intros i Hin. unfold Py.range_down in Hin.
  apply in_map_iff in Hin as (k & <- & Hk). apply in_seq in Hk. lia.
Qed.

End PyFacts.

(** ** Chain builder *)

Section ChainProperties.
Local Open Scope np_scope.

Variable root : (npfloat -> result npfloat) -> list npfloat -> result OptimizeResult.t.

(** A turn for bin [i >= 2] writes position [i - 1] only: the length, the
    first and the last entry are as before. *)
Lemma chain_step_frame eb lnw i (S S' : list npfloat) :
  (2 <= i < Py.len S)%Z ->
  chain_step root eb lnw i S = Ok S' ->
  length S' = length S /\
  S' !! 0%nat = S !! 0%nat /\
  S' !! (length S - 1)%nat = S !! (length S - 1)%nat.
Proof.
  unfold chain_step, Py.len. intros Hi H.
  apply bind_Ok_inv in H as (S_i & _ & H).
  apply bind_Ok_inv in H as (v & _ & H).
  rewrite PyFacts.setitem_in_range in H by (unfold Py.len; lia).
  injection H as <-.
  rewrite length_insert. split; [reflexivity |].
  split; apply list_lookup_insert_ne; lia.
Qed.

Lemma chain_loop_frame eb lnw (idx : list Z) : forall (S S' : list npfloat),
  List.Forall (fun i => (2 <= i < Py.len S)%Z) idx ->
  for_in idx (chain_step root eb lnw) S = Ok S' ->
  length S' = length S /\
  S' !! 0%nat = S !! 0%nat /\
  S' !! (length S - 1)%nat = S !! (length S - 1)%nat.
Proof.
  induction idx as [| i idx IH]; intros S S' Hall H.
  - injection H as <-. auto.
  - apply List.Forall_cons_iff in Hall as [Hi Hall].
    simpl in H. apply bind_Ok_inv in H as (S1 & Hstep & Hrest).
    apply chain_step_frame in Hstep as (Hlen & H0 & Hlast); [| exact Hi].
    apply IH in Hrest as (Hlen' & H0' & Hlast').
    + rewrite Hlen in *. repeat split; congruence.
    + unfold Py.len in *. rewrite Hlen. exact Hall.
Qed.

(** The indices the chain builder visits: [len - 1] down to [2]. *)
Lemma chain_indices (eb : list npfloat) :
  List.Forall (fun i => (2 <= i < Py.len eb)%Z) (Py.range_down (Py.len eb - 1) 1).
Proof.
  eapply List.Forall_impl; [| apply PyFacts.range_down_bounds].
  simpl. intros i Hi. lia.
Qed.

(** Shape of what the chain builder returns, when it returns: as long as
    its input, the anchor last, and the first entry still the zero of
    [np.zeros_like] once there are two boundaries or more. *)
Lemma chain_shape Smin eb lnw S :
  compute_entropy_given_Smin root Smin eb lnw = Ok S ->
  length S = length eb /\
  S.[-1] = Ok Smin /\
  ((2 <= length eb)%nat -> S.[0] = Ok (Fin 0)).
Proof.
  unfold compute_entropy_given_Smin. intros H.
  apply bind_Ok_inv in H as (S0 & Hset & Hloop).
  assert (length (Np.zeros_like eb) = length eb) as Hz
    by (unfold Np.zeros_like; apply length_map).
  unfold Py.setitem in Hset.
  destruct (Py.position _ (-1)) as [k|] eqn:Hpos; [| discriminate].
  injection Hset as <-.
  assert (0 < length eb)%nat as Hne.
  { apply PyFacts.position_lt in Hpos. lia. }
  rewrite Hz, PyFacts.position_last in Hpos by lia. injection Hpos as <-.
  apply chain_loop_frame in Hloop as (Hlen & H0 & Hlast).
  - rewrite length_insert, Hz in *.
    split; [exact Hlen |]. split.
    + apply PyFacts.getitem_last. rewrite Hlen, Hlast.
      apply list_lookup_insert_eq. lia.
    + intros H2. change 0%Z with (Z.of_nat 0). apply PyFacts.getitem_nat.
      rewrite H0, list_lookup_insert_ne by lia.
      unfold Np.zeros_like. destruct eb; [simpl in H2; lia | reflexivity].
  - pose proof (chain_indices eb) as Hidx.
    eapply List.Forall_impl; [| exact Hidx].
    simpl. unfold Py.len. rewrite length_insert, Hz. auto.
Qed.

End ChainProperties.

Section ChainClaims.
Local Open Scope np_scope.

Variable root : (npfloat -> result npfloat) -> list npfloat -> result OptimizeResult.t.

(** A turn of the loop, for a bin index in range of the three arrays: the
    four reads succeed, and the turn stores the answer of the solve of that
    bin or raises what that solve raises. *)
Lemma chain_step_outcome eb lnw i (S : list npfloat) :
  length S = length eb ->
  (2 <= i < Py.len eb)%Z ->
  (i < Py.len lnw)%Z ->
  exists E_i_1 E_i lnw_i S_i,
    eb.[i - 1] = Ok E_i_1 /\ eb.[i] = Ok E_i /\ lnw.[i] = Ok lnw_i /\
    chain_step root eb lnw i S =
      (v ← (sol ← root (fun S_i_1 => fn_entropy S_i_1 E_i_1 E_i lnw_i S_i) [Fin 0];
            (OptimizeResult.x sol).[0]);
       Ok (<[Z.to_nat (i - 1) := v]> S)).
Proof.
  intros Hlen Hi Hlnw. unfold chain_step, optimize_bin_entropy.
  destruct (PyFacts.getitem_in_range S i) as (S_i & HS_i & _);
    [unfold Py.len in *; lia |].
  destruct (PyFacts.getitem_in_range eb (i - 1)) as (E_i_1 & HE1 & _); [lia |].
  destruct (PyFacts.getitem_in_range eb i) as (E_i & HE & _); [lia |].
  destruct (PyFacts.getitem_in_range lnw i) as (lnw_i & Hw & _); [lia |].
  exists E_i_1, E_i, lnw_i, S_i.
  rewrite HS_i, HE1, HE, Hw, !bind_Ok.
  repeat split.
  destruct (root _ [Fin 0]) as [sol |]; [| reflexivity].
  rewrite !bind_Ok.
  destruct ((OptimizeResult.x sol).[0]) as [v |]; [| reflexivity].
  rewrite !bind_Ok.
  apply PyFacts.setitem_in_range. unfold Py.len in *. lia.
Qed.

(** The loop either runs to its end or raises the exception of the solve
    of one of its bins. *)
Lemma chain_loop_outcome eb lnw (idx : list Z) : forall S : list npfloat,
  length S = length eb ->
  List.Forall (fun i => (2 <= i < Py.len eb)%Z /\ (i < Py.len lnw)%Z) idx ->
  (exists S', for_in idx (chain_step root eb lnw) S = Ok S') \/
  (exists i E_i_1 E_i lnw_i S_i e,
     (2 <= i < Py.len eb)%Z /\
     eb.[i - 1] = Ok E_i_1 /\ eb.[i] = Ok E_i /\ lnw.[i] = Ok lnw_i /\
     (sol ← root (fun S_i_1 => fn_entropy S_i_1 E_i_1 E_i lnw_i S_i) [Fin 0];
      (OptimizeResult.x sol).[0]) = Raise e /\
     for_in idx (chain_step root eb lnw) S = Raise e).
Proof.
  induction idx as [| i idx IH]; intros S Hlen Hall.
  - left. simpl. eauto.
  - apply List.Forall_cons_iff in Hall as [[Hi Hlnw] Hall].
    destruct (chain_step_outcome eb lnw i S Hlen Hi Hlnw)
      as (E_i_1 & E_i & lnw_i & S_i & HE1 & HE & Hw & Hstep).
    cbn [for_in]. rewrite Hstep.
    destruct (sol ← root (fun S_i_1 => fn_entropy S_i_1 E_i_1 E_i lnw_i S_i) [Fin 0];
              (OptimizeResult.x sol).[0]) as [v | e] eqn:Hsolve.
    + rewrite !bind_Ok.
      destruct (IH (<[Z.to_nat (i - 1) := v]> S)) as [Hok | Hraise].
      * rewrite length_insert. exact Hlen.
      * exact Hall.
      * left. exact Hok.
      * right. exact Hraise.
    + right. exists i, E_i_1, E_i, lnw_i, S_i, e. repeat split; auto; lia.
Qed.

(** C2 (the code at the failing input): with two boundaries, one bin, the
    loop [range(1, 1, -1)] is empty; no solve is made and the first
    boundary keeps the zero of [np.zeros_like], for every solver, anchor
    and log-weight array. *)
Theorem chain_two_boundaries_first_unsolved Smin e0 e1 lnw :
  compute_entropy_given_Smin root Smin [e0; e1] lnw = Ok [Fin 0; Smin].
Proof. reflexivity. Qed.

(** The same for every input: the loop stops at bin 2, so position 0 is
    never written. *)
Lemma chain_first_boundary_placeholder Smin eb lnw S :
  (2 <= length eb)%nat ->
  compute_entropy_given_Smin root Smin eb lnw = Ok S ->
  S.[0] = Ok (Fin 0).
Proof. intros H2 H. apply (chain_shape root) in H as (_ & _ & H0). auto. Qed.

(** C10 (as the code has it): for a boundary array of length at least one
    and a log-weight array that has an entry at every index the loop reads
    (at least as long as the boundary array, or at most two boundaries),
    the chain builder returns an array as long as the boundary array whose
    last element is [Smin] itself, whatever values the solver hands back,
    unless the solve of one of the bins raises: then that exception is the
    outcome.  So it returns such an array whenever each per-bin solve
    returns; nothing is assumed of the solver. *)
Theorem compute_entropy_given_Smin_anchor Smin eb lnw :
  (1 <= length eb)%nat ->
  (length eb <= length lnw \/ length eb <= 2)%nat ->
  (exists S,
     compute_entropy_given_Smin root Smin eb lnw = Ok S /\
     length S = length eb /\
     S.[-1] = Ok Smin) \/
  (exists i E_i_1 E_i lnw_i S_i e,
     (2 <= i < Py.len eb)%Z /\
     eb.[i - 1] = Ok E_i_1 /\ eb.[i] = Ok E_i /\ lnw.[i] = Ok lnw_i /\
     (sol ← root (fun S_i_1 => fn_entropy S_i_1 E_i_1 E_i lnw_i S_i) [Fin 0];
      (OptimizeResult.x sol).[0]) = Raise e /\
     compute_entropy_given_Smin root Smin eb lnw = Raise e).
Proof.
  intros Hne Hlnw.
  assert (length (Np.zeros_like eb) = length eb) as Hz
    by (unfold Np.zeros_like; apply length_map).
  destruct (chain_loop_outcome eb lnw (Py.range_down (Py.len eb - 1) 1)
              (<[(length eb - 1)%nat := Smin]> (Np.zeros_like eb)))
    as [(S & HS) | Hraise].
  - rewrite length_insert. exact Hz.
  - pose proof (PyFacts.range_down_bounds (Py.len eb - 1) 1) as Hb.
    eapply List.Forall_impl; [| exact Hb].
    simpl. unfold Py.len. intros i Hi. lia.
  - left. exists S.
    assert (compute_entropy_given_Smin root Smin eb lnw = Ok S) as Hrun.
    { unfold compute_entropy_given_Smin.
      unfold Py.setitem at 1. rewrite Hz, PyFacts.position_last by lia.
      rewrite bind_Ok. exact HS. }
    split; [exact Hrun |].
    apply chain_shape in Hrun as (Hlen & Hlast & _). auto.
  - right. destruct Hraise as (i & E_i_1 & E_i & lnw_i & S_i & e & Hi & HE1 & HE & Hw & Hsolve & Hrun).
    exists i, E_i_1, E_i, lnw_i, S_i, e. repeat split; auto; try lia.
    unfold compute_entropy_given_Smin.
    unfold Py.setitem at 1. rewrite Hz, PyFacts.position_last by lia.
    rewrite bind_Ok. exact Hrun.
Qed.

End ChainClaims.

(** A run with a solver that does evaluate the residual: three descending
    boundaries, the solver staying at its starting point. *)
Lemma probing_chain_runs :
  compute_entropy_given_Smin probing_root (Fin 5)
    [Fin 2; Fin 1; Fin 0] [Fin 0; Fin 0; Fin 0] = Ok [Fin 0; Fin 0; Fin 5].
Proof.
  assert (exists v, fn_entropy (Fin 0) (Fin 1) (Fin 0) (Fin 0) (Fin 5) = Ok v) as [v Hv].
  { eexists. apply (fn_entropy_finite 0 1 0 0 5); [lra |].
    rewrite Rabs_left by lra. lra. }
  unfold compute_entropy_given_Smin.
  change (Py.setitem (Np.zeros_like [Fin 2; Fin 1; Fin 0]) (-1) (Fin 5))
    with (Ok [Fin 0; Fin 0; Fin 5] : result (list npfloat)).
  rewrite bind_Ok.
  change (Py.range_down (Py.len [Fin 2; Fin 1; Fin 0] - 1) 1) with [2%Z].
  cbn [for_in]. unfold chain_step, optimize_bin_entropy.
  change ([Fin 0; Fin 0; Fin 5].[2]) with (Ok (Fin 5) : result npfloat).
  change ([Fin 2; Fin 1; Fin 0].[2 - 1]) with (Ok (Fin 1) : result npfloat).
  change ([Fin 2; Fin 1; Fin 0].[2]) with (Ok (Fin 0) : result npfloat).
  change ([Fin 0; Fin 0; Fin 0].[2]) with (Ok (Fin 0) : result npfloat).
  rewrite !bind_Ok. unfold probing_root. rewrite Hv. reflexivity.
Qed.

Lemma compute_entropy_given_Smin_anchor_witness :
  exists S,
    compute_entropy_given_Smin probing_root (Fin 5)
      [Fin 2; Fin 1; Fin 0] [Fin 0; Fin 0; Fin 0] = Ok S /\
    length S = 3%nat /\
    Py.getitem S (-1) = Ok (Fin 5).
Proof.
  destruct (compute_entropy_given_Smin_anchor probing_root (Fin 5)
              [Fin 2; Fin 1; Fin 0] [Fin 0; Fin 0; Fin 0])
    as [Hreturns | (i & E_i_1 & E_i & lnw_i & S_i & e & _ & _ & _ & _ & _ & Hraise)].
  - simpl. lia.
  - left. simpl. lia.
  - exact Hreturns.
  - rewrite probing_chain_runs in Hraise. discriminate Hraise.
Defined.

(** C10 as stated fails: with three boundaries and an empty log-weight
    array the first turn of the loop reads [lnw[2]] and the call raises
    [IndexError] instead of returning an array. *)
Lemma compute_entropy_given_Smin_short_lnw :
  compute_entropy_given_Smin settled_root (Fin 5) [Fin 2; Fin 1; Fin 0] []
    = Raise IndexError.
Proof. reflexivity. Qed.

(** ** Smoothness penalty and optimizer *)

Section PenaltyProperties.
Local Open Scope np_scope.

Lemma getitem_app_offset (pre E : list npfloat) (j : nat) (v : npfloat) (i : Z) :
  E !! j = Some v ->
  i = Z.of_nat (length pre + j) ->
  (pre ++ E).[i] = Ok v.
Proof.
  intros Hv ->. apply PyFacts.getitem_nat.
  rewrite lookup_app_r by lia.
  replace (length pre + j - length pre)%nat with j by lia. exact Hv.
Qed.

(** A turn at an interior boundary adds the slope jump of its window. *)
Lemma badness_step_window (preE preS restE restS : list npfloat)
    e0 e1 e2 s0 s1 s2 acc :
  length preE = length preS ->
  badness_step (preE ++ e0 :: e1 :: e2 :: restE) (preS ++ s0 :: s1 :: s2 :: restS)
    (Z.of_nat (length preE)) acc
  = Ok (acc + slope_jump e0 e1 e2 s0 s1 s2).
Proof.
  intros Hlen. unfold badness_step.
  set (k := Z.of_nat (length preE)).
  rewrite (getitem_app_offset preE _ 1 e1 (k + 1)) by (reflexivity || lia).
  rewrite (getitem_app_offset preE _ 0 e0 k) by (reflexivity || lia).
  rewrite (getitem_app_offset preE _ 2 e2 (k + 2)) by (reflexivity || lia).
  rewrite (getitem_app_offset preS _ 1 s1 (k + 1)) by (reflexivity || lia).
  rewrite (getitem_app_offset preS _ 0 s0 k) by (reflexivity || lia).
  rewrite (getitem_app_offset preS _ 2 s2 (k + 2)) by (reflexivity || lia).
  rewrite !bind_Ok. unfold slope_jump.
  rewrite (NpFacts.add_comm (e2 - e1) (e1 - e0)). reflexivity.
Qed.

(** The loop over the interior boundaries of [E], started behind a prefix,
    accumulates the slope jumps of [E] in order. *)
Lemma badness_loop_jumps (E : list npfloat) : forall (S preE preS : list npfloat) acc,
  length preE = length preS ->
  length E = length S ->
  for_in (map Z.of_nat (seq (length preE) (length E - 2)))
    (badness_step (preE ++ E) (preS ++ S)) acc
  = Ok (fold_left Np.add (interior_jumps E S) acc).
Proof.
  induction E as [| e0 E IH]; intros S preE preS acc Hpre Hlen.
  - reflexivity.
  - destruct S as [| s0 S]; [discriminate |].
    destruct E as [| e1 [| e2 E]]; [reflexivity | reflexivity |].
    destruct S as [| s1 [| s2 S]]; [discriminate | discriminate |].
    replace (length (e0 :: e1 :: e2 :: E) - 2)%nat
      with (Datatypes.S (length (e1 :: e2 :: E) - 2)) by (simpl; lia).
    cbn [seq map for_in].
    rewrite badness_step_window by exact Hpre.
    rewrite bind_Ok.
    specialize (IH (s1 :: s2 :: S) (preE ++ [e0]) (preS ++ [s0])
                  (acc + slope_jump e0 e1 e2 s0 s1 s2)).
    rewrite <- !app_assoc in IH. cbn [app] in IH.
    rewrite !length_app in IH. cbn [length] in IH.
    replace (length preE + 1)%nat with (Datatypes.S (length preE)) in IH by lia.
    cbn [length]. rewrite IH; [reflexivity | lia | simpl in *; lia].
Qed.

(** A run by hand: boundaries [2, 1, 0], a solver that answers 9 and the
    anchor 7 give the chain [0, 9, 7]; the one interior boundary has
    slopes [(7-9)/(0-1) = 2] and [(9-0)/(1-2) = -9], widths summing to -2,
    and the penalty is [|11 / -2| = 5.5]. *)
Example badness_three_boundaries :
  entropy_boundary_badness (fixed_root (Fin 9)) (Fin 7)
    [Fin 2; Fin 1; Fin 0] [Fin 0; Fin 0; Fin 0] = Ok (Fin 5.5).
Proof.
  unfold entropy_boundary_badness.
  change (compute_entropy_given_Smin (fixed_root (Fin 9)) (Fin 7)
            [Fin 2; Fin 1; Fin 0] [Fin 0; Fin 0; Fin 0])
    with (Ok [Fin 0; Fin 9; Fin 7] : result (list npfloat)).
  rewrite bind_Ok.
  change (Py.range (Py.len [Fin 2; Fin 1; Fin 0] - 2)) with [0%Z].
  cbn [for_in]. unfold badness_step.
  change ([Fin 2; Fin 1; Fin 0].[0 + 1]) with (Ok (Fin 1) : result npfloat).
  change ([Fin 2; Fin 1; Fin 0].[0]) with (Ok (Fin 2) : result npfloat).
  change ([Fin 2; Fin 1; Fin 0].[0 + 2]) with (Ok (Fin 0) : result npfloat).
  change ([Fin 0; Fin 9; Fin 7].[0 + 1]) with (Ok (Fin 9) : result npfloat).
  change ([Fin 0; Fin 9; Fin 7].[0]) with (Ok (Fin 0) : result npfloat).
  change ([Fin 0; Fin 9; Fin 7].[0 + 2]) with (Ok (Fin 7) : result npfloat).
  rewrite !bind_Ok. rewrite !sub_Fin, !add_Fin.
  rewrite !NpFacts.div_Fin by lra. rewrite !sub_Fin.
  rewrite NpFacts.div_Fin by lra.
  cbn [Np.abs]. rewrite add_Fin. do 2 f_equal.
  replace (((7 - 9) / (0 - 1) - (9 - 0) / (1 - 2)) / (0 - 1 + (1 - 2)))%R
    with (- (11 / 2))%R by (field; lra).
  rewrite Rabs_Ropp, Rabs_pos_eq; lra.
Qed.

Variable root : (npfloat -> result npfloat) -> list npfloat -> result OptimizeResult.t.
Variable minimize_scalar : (npfloat -> result npfloat) -> result MinimizeResult.t.

(** C4: the penalty is the sum, over the interior boundaries, of
    [|(dS2/de2 - dS1/de1)/(de1 + de2)|] on the chain built from [Smin]
    (and raises what the chain builder raises); [optimize_entropy] hands
    that penalty to the scalar minimizer and returns the chain rebuilt
    with the [Smin] the minimizer found. *)
Theorem penalty_is_sum_of_slope_jumps (energy_boundaries lnw : list npfloat) :
  (forall Smin,
     entropy_boundary_badness root Smin energy_boundaries lnw =
       (S ← compute_entropy_given_Smin root Smin energy_boundaries lnw;
        Ok (smoothness_penalty energy_boundaries S)))
  /\ optimize_entropy root minimize_scalar energy_boundaries lnw =
       (res ← minimize_scalar
                (fun Smin => entropy_boundary_badness root Smin energy_boundaries lnw);
        compute_entropy_given_Smin root (MinimizeResult.x res) energy_boundaries lnw).
Proof.
  split; [| reflexivity].
  intros Smin. unfold entropy_boundary_badness.
  destruct (compute_entropy_given_Smin root Smin energy_boundaries lnw)
    as [S | e] eqn:Hchain; [| reflexivity].
  rewrite !bind_Ok.
  apply chain_shape in Hchain as (Hlen & _).
  pose proof (badness_loop_jumps energy_boundaries S [] [] (Fin 0) eq_refl
                (eq_sym Hlen)) as Hloop.
  cbn [app length] in Hloop.
  unfold smoothness_penalty, Py.range, Py.len.
  replace (Z.to_nat (Z.of_nat (length energy_boundaries) - 2))
    with (length energy_boundaries - 2)%nat by lia.
  exact Hloop.
Qed.

End PenaltyProperties.

(** ** Moment-matching root function *)

Section BetaProperties.
Local Open Scope np_scope.

(** The test of [fn_for_beta] is on [x], not on [|x|]: everything below
    the threshold takes the linear branch. *)
Lemma fn_for_beta_below_threshold x r :
  (x <? Fin 1e-14) = true ->
  fn_for_beta x r = Fin 0.5 * x - x * r.
Proof. intros H. unfold fn_for_beta. rewrite H. reflexivity. Qed.

Lemma fn_for_beta_above_threshold x r :
  (x <? Fin 1e-14) = false ->
  fn_for_beta x r = x / (Fin 1 - Np.exp (- x)) - Fin 1 - x * r.
Proof. intros H. unfold fn_for_beta. rewrite H. reflexivity. Qed.

(** Near zero the quotient by [1 - exp(-x)] is not evaluated. *)
Lemma fn_for_beta_near_zero (x : R) r :
  (Rabs x < 1e-14)%R ->
  fn_for_beta (Fin x) r = Fin 0.5 * Fin x - Fin x * r.
Proof.
  intros H. apply fn_for_beta_below_threshold, NpFacts.ltb_Fin_true.
  pose proof (Rle_abs x). lra.
Qed.

(** Every negative [x] takes the linear branch as well. *)
Lemma fn_for_beta_negative (x : R) r :
  (x < 0)%R ->
  fn_for_beta (Fin x) r = Fin 0.5 * Fin x - Fin x * r.
Proof.
  intros H. apply fn_for_beta_below_threshold, NpFacts.ltb_Fin_true. lra.
Qed.

(** C5 (the code at the failing input): at [x = -2], [r = 0] the absolute
    value of [x] is above the threshold, yet [fn_for_beta] returns the
    value of the linear branch, which is not the value of the general
    branch there. *)
Theorem fn_for_beta_negative_takes_linear_branch :
  (Np.abs (Fin (-2)) <? Fin 1e-14) = false /\
  fn_for_beta (Fin (-2)) (Fin 0) = Fin 0.5 * Fin (-2) - Fin (-2) * Fin 0 /\
  fn_for_beta (Fin (-2)) (Fin 0)
    <> Fin (-2) / (Fin 1 - Np.exp (- Fin (-2))) - Fin 1 - Fin (-2) * Fin 0.
Proof.
  split; [| split].
  - cbn [Np.abs]. apply NpFacts.ltb_Fin_false.
    rewrite Rabs_left by lra. lra.
  - apply fn_for_beta_negative. lra.
  - rewrite fn_for_beta_negative by lra.
    assert (3 < exp 2)%R as Hexp.
    { assert (2 <> 0)%R as H2 by lra. pose proof (exp_ineq1 2 H2). lra. }
    cbn [Np.neg Np.exp]. replace (- (-2))%R with 2%R by lra.
    rewrite sub_Fin.
    rewrite NpFacts.div_Fin by lra.
    cbn [Np.mul Np.sub Np.add Np.neg].
    intros Heq. injection Heq as Heq.
    assert (/ (1 - exp 2) <> 0)%R as Hq by (apply Rinv_neq_0_compat; lra).
    unfold Rdiv in Heq. lra.
Qed.

End BetaProperties.

(** ** Convergence flags of the solvers *)

Section ConvergenceFlag.
Local Open Scope np_scope.

Variable root : (npfloat -> result npfloat) -> list npfloat -> result OptimizeResult.t.
Variable root_scalar : (npfloat -> npfloat) -> npfloat -> npfloat -> result RootResults.t.

(** What [optimize_bin_entropy] returns is the first entry of the final
    iterate, or the exception of the solver. *)
Lemma optimize_bin_entropy_returns_iterate i E_bounds lnw S_i E_i_1 E_i lnw_i :
  E_bounds.[i - 1] = Ok E_i_1 ->
  E_bounds.[i] = Ok E_i ->
  lnw.[i] = Ok lnw_i ->
  optimize_bin_entropy root i E_bounds lnw S_i =
    (sol ← root (fun S_i_1 => fn_entropy S_i_1 E_i_1 E_i lnw_i S_i) [Fin 0];
     (OptimizeResult.x sol).[0]).
Proof. intros H1 H2 H3. unfold optimize_bin_entropy. rewrite H1, H2, H3. reflexivity. Qed.

(** C6 (as the code has it): neither wrapper reads the convergence flag.
    Overwriting [success] (or [converged]) in what the solver returns, with
    either value, leaves the outcome of [optimize_bin_entropy] (or
    [find_beta_deltaE]) unchanged: the final iterate is returned as the
    answer whether or not the solver converged. *)
Theorem solver_flag_is_dropped (flag : bool) :
  (forall i E_bounds lnw S_i,
     optimize_bin_entropy (with_success flag root) i E_bounds lnw S_i =
     optimize_bin_entropy root i E_bounds lnw S_i)
  /\ (forall meanE_over_deltaE,
        find_beta_deltaE (with_converged flag root_scalar) meanE_over_deltaE =
        find_beta_deltaE root_scalar meanE_over_deltaE).
Proof.
  split.
  - intros i E_bounds lnw S_i. unfold optimize_bin_entropy, with_success.
    destruct (E_bounds.[i - 1]) as [E_i_1 |]; [| reflexivity].
    destruct (E_bounds.[i]) as [E_i |]; [| reflexivity].
    destruct (lnw.[i]) as [lnw_i |]; [| reflexivity].
    rewrite !bind_Ok.
    destruct (root _ [Fin 0]) as [sol |]; reflexivity.
  - intros r. unfold find_beta_deltaE, with_converged.
    destruct (r =? Fin 0);
      match goal with
      | |- context [root_scalar ?f ?a ?b] => destruct (root_scalar f a b)
      end; reflexivity.
Qed.

End ConvergenceFlag.

(** C6 as stated fails: a solve that reports failure and a solve that
    reports success give the caller the same number, for the bin-entropy
    solver and for the moment-matching root finder alike. *)
Lemma stalled_solve_returns_a_number :
  (optimize_bin_entropy stalled_root 1 [Fin 1; Fin 0] [Fin 0; Fin 0] (Fin 0)
     = Ok (Fin 0) /\
   optimize_bin_entropy settled_root 1 [Fin 1; Fin 0] [Fin 0; Fin 0] (Fin 0)
     = Ok (Fin 0))
  /\ (find_beta_deltaE stalled_root_scalar (Fin 1) = Ok (Fin 1) /\
      find_beta_deltaE settled_root_scalar (Fin 1) = Ok (Fin 1)).
Proof.
  split; [split; reflexivity |].
  unfold find_beta_deltaE. cbn [Np.eqb].
  destruct (Req_dec_T 1 0) as [H | _]; [lra |].
  split; reflexivity.
Qed.

(** ** Snapshot loading loop *)

Section LoaderProperties.
Local Open Scope np_scope.

Variable root : (npfloat -> result npfloat) -> list npfloat -> result OptimizeResult.t.
Variable minimize_scalar : (npfloat -> result npfloat) -> result MinimizeResult.t.

Lemma getitem_first {A} (a : A) (l : list A) : (a :: l).[0] = Ok a.
Proof. reflexivity. Qed.

Lemma last_cons_default {A} (l : list A) : forall c a b : A,
  List.last (c :: l) a = List.last (c :: l) b.
Proof.
  induction l as [| d l IH]; intros c a b; [reflexivity |].
  change (List.last (d :: l) a = List.last (d :: l) b). apply IH.
Qed.

Lemma lookup_last_cons {A} (l : list A) : forall a : A,
  (a :: l) !! length l = Some (List.last l a).
Proof.
  induction l as [| b l IH]; intros a; [reflexivity |].
  cbn [length]. rewrite lookup_cons, IH.
  destruct l as [| c l]; [reflexivity |].
  change (List.last (b :: c :: l) a) with (List.last (c :: l) a).
  f_equal. apply last_cons_default.
Qed.

Lemma getitem_last_cons {A} (a : A) (l : list A) :
  (a :: l).[-1] = Ok (List.last l a).
Proof.
  apply PyFacts.getitem_last. cbn [length].
  replace (Datatypes.S (length l) - 1)%nat with (length l) by lia.
  apply lookup_last_cons.
Qed.

(** C7 (as the code has it): the loading loop compares no lengths.  An
    empty boundary file is an [IndexError]; for every other input the
    outcome is that of [optimize_entropy] on the boundaries and log-weights
    in descending order, stored with the three sequences; the mean-energy
    sequence is carried along and never read. *)
Theorem load_snapshot_compares_no_lengths dat mean_energy_dat lnw_dat :
  load_snapshot root minimize_scalar dat mean_energy_dat lnw_dat =
    match one_dimensional dat with
    | [] => Raise IndexError
    | first :: rest =>
        let '(eb, me, lw) :=
          descending_order (first :: rest) mean_energy_dat lnw_dat
            first (List.last rest first) in
        S ← optimize_entropy root minimize_scalar eb lw;
        Ok (mk_snapshot eb me lw S)
    end.
Proof.
  unfold load_snapshot.
  change (match dat with Array0 v => [v] | Array1 a => a end)
    with (one_dimensional dat).
  destruct (one_dimensional dat) as [| first rest]; [reflexivity |].
  rewrite getitem_first, getitem_last_cons, !bind_Ok.
  unfold descending_order, Np.flip_array.
  destruct (first <? List.last rest first); reflexivity.
Qed.

End LoaderProperties.

(** C7 as stated fails: three boundaries with no mean energy and three
    log-weights (neither of length two) are not refused; the optimizer
    runs, the solver is called for bin 2, and their answers (7 and 9) are
    in the entropy array that is returned. *)
Lemma load_snapshot_accepts_mismatched_lengths :
  load_snapshot (fixed_root (Fin 9)) (one_shot_minimizer (Fin 7))
    (Array1 [Fin 2; Fin 1; Fin 0]) [] [Fin 0; Fin 0; Fin 0]
  = Ok (mk_snapshot [Fin 2; Fin 1; Fin 0] [] [Fin 0; Fin 0; Fin 0]
          [Fin 0; Fin 9; Fin 7]).
Proof.
  unfold load_snapshot.
  rewrite getitem_first, getitem_last_cons, !bind_Ok. cbn [List.last].
  rewrite NpFacts.ltb_Fin_false by lra.
  reflexivity.
Qed.

(** ** Reference-model dispatch *)

Section DispatchProperties.

(** The [else] arm: no keyword in the path and a kind that is none of the
    three known ones. *)
Lemma unrecognized_kind_selects_other base (s : system) k :
  Str.contains "linear" base = false ->
  Str.contains "quadratic" base = false ->
  kind s = Some k ->
  k <> "Gaussian"%string -> k <> "Erfinv"%string -> k <> "Pieces"%string ->
  exact_density_of_states base s = Ok Other.
Proof.
  intros Hl Hq Hk HG HE HP. unfold exact_density_of_states, get_kind.
  rewrite Hl, Hq, Hk, bind_Ok.
  apply String.eqb_neq in HG, HE, HP. rewrite HG, HE, HP. reflexivity.
Qed.

(** C8 (as the code has it): at every energy the function selected for an
    unrecognized kind returns the density zero, without failing; the
    log-density the tracker takes of it is [np.log(0) = -inf]. *)
Theorem unrecognized_model_density_is_zero (E : npfloat) :
  call Other E = Some (Fin 0) /\ exact_entropy Other E = Some NInf.
Proof.
  split; [reflexivity |].
  unfold exact_entropy, call, other_density_of_states, option_map.
  rewrite NpFacts.log_zero. reflexivity.
Qed.

(** C8 as stated fails: at [E = 0.5] the log-density of the fallback is not
    zero. *)
Lemma unrecognized_model_log_density_not_zero :
  exact_entropy Other (Fin 0.5) <> Some (Fin 0).
Proof.
  unfold exact_entropy, call, other_density_of_states, option_map.
  rewrite NpFacts.log_zero. discriminate.
Qed.

(** C9 (as the code has it): the path is looked at first.  Two runs with
    the same metadata get the same function when their paths agree on
    containing [linear] and on containing [quadratic]. *)
Theorem selection_follows_keywords_then_kind base1 base2 (s : system) :
  Str.contains "linear" base1 = Str.contains "linear" base2 ->
  Str.contains "quadratic" base1 = Str.contains "quadratic" base2 ->
  exact_density_of_states base1 s = exact_density_of_states base2 s.
Proof.
  intros Hl Hq. unfold exact_density_of_states. rewrite Hl, Hq. reflexivity.
Qed.

Lemma selection_follows_keywords_then_kind_witness :
  (Str.contains "linear" "runs/a" = Str.contains "linear" "runs/b" /\
   Str.contains "quadratic" "runs/a" = Str.contains "quadratic" "runs/b") /\
  exact_density_of_states "runs/a" (mk_system (Some "Ising"%string) ∅)
  = exact_density_of_states "runs/b" (mk_system (Some "Ising"%string) ∅).
Proof.
  split; [split; reflexivity |].
  apply (selection_follows_keywords_then_kind "runs/a" "runs/b");
    reflexivity.
Defined.

(** C9 as stated fails: with one and the same metadata record (a Gaussian
    of width one) the path [linear-probe] gets the linear function and the
    path [probe] the Gaussian one. *)
Lemma selection_inspects_the_path :
  let s := mk_system (Some "Gaussian"%string) {[ "sigma"%string := Fin 1 ]} in
  exact_density_of_states "linear-probe" s = Ok Linear /\
  exact_density_of_states "probe" s = Ok (Gaussian (Fin 1)) /\
  exact_density_of_states "linear-probe" s <> exact_density_of_states "probe" s.
Proof.
  assert (exact_density_of_states "probe"
            (mk_system (Some "Gaussian"%string) {[ "sigma"%string := Fin 1 ]})
          = Ok (Gaussian (Fin 1))) as Hg.
  { unfold exact_density_of_states, get_kind, get_param. cbn [kind params].
    rewrite lookup_singleton_eq. reflexivity. }
  cbv zeta. split; [reflexivity |]. split; [exact Hg |].
  rewrite Hg. discriminate.
Qed.

End DispatchProperties.

(** ** Checkpoint loop *)

Section TrackerProperties.

(** [Str.sorted] is a sort: it permutes its argument and leaves it
    ascending in the order of [str]. *)
Lemma insert_permutes s l : Permutation (s :: l) (Str.insert s l).
Proof.
  induction l as [| h t IH]; simpl; [reflexivity |].
  destruct (String.leb s h); [reflexivity |].
  rewrite perm_swap. apply perm_skip, IH.
Qed.

Lemma sorted_permutes l : Permutation l (Str.sorted l).
Proof.
  induction l as [| s l IH]; simpl; [reflexivity |].
  rewrite <- insert_permutes. apply perm_skip, IH.
Qed.

Lemma insert_head_rel s a l :
  String.leb a s = true ->
  HdRel (fun x y => String.leb x y = true) a l ->
  HdRel (fun x y => String.leb x y = true) a (Str.insert s l).
Proof.
  intros Has Hhd. destruct l as [| h t]; simpl; [constructor; exact Has |].
  destruct (String.leb s h); constructor; [exact Has |].
  inversion Hhd; assumption.
Qed.

Lemma insert_keeps_order s l :
  Sorted (fun x y => String.leb x y = true) l ->
  Sorted (fun x y => String.leb x y = true) (Str.insert s l).
Proof.
  induction 1 as [| h t Hsorted IH Hhd]; simpl.
  - repeat constructor.
  - destruct (String.leb s h) eqn:Hsh.
    + constructor; [constructor; assumption | constructor; exact Hsh].
    + constructor; [exact IH |].
      apply insert_head_rel; [| exact Hhd].
      destruct (String.leb_total s h) as [H | H]; [congruence | exact H].
Qed.

Lemma sorted_in_text_order l :
  Sorted (fun x y => String.leb x y = true) (Str.sorted l).
Proof.
  induction l as [| s l IH]; simpl; [constructor |].
  apply insert_keeps_order, IH.
Qed.

(** The order of [str]: a longer number can sort before a shorter one. *)
Lemma sorted_is_by_text :
  Str.sorted ["run/5.cbor"; "run/100.cbor"; "run/20.cbor"]%string
  = ["run/100.cbor"; "run/20.cbor"; "run/5.cbor"]%string.
Proof. reflexivity. Qed.

(** C3 (the code at the failing input): for checkpoints named 100, 20 and
    5, found in any of these orders, the series has the move counts in the
    order of the file names as text, [100, 20, 5], not in ascending numeric
    order; the errors are those of the checkpoints in that same order. *)
Theorem checkpoints_in_text_order (err : string -> npfloat) :
  let outcome :=
    Ok ([Fin 100; Fin 20; Fin 5],
        [err "run/100"; err "run/20"; err "run/5"])%string in
  convergence_series (fun f => Ok (err f))
    ["run/100.cbor"; "run/20.cbor"; "run/5.cbor"]%string = outcome /\
  convergence_series (fun f => Ok (err f))
    ["run/5.cbor"; "run/20.cbor"; "run/100.cbor"]%string = outcome /\
  [Fin 100; Fin 20; Fin 5] <> [Fin 5; Fin 20; Fin 100].
Proof.
  cbv zeta. split; [reflexivity |]. split; [reflexivity |].
  intros H. injection H as H _. lra.
Qed.

End TrackerProperties.

(* ===================================================================== *)
(** * Part III: further properties of the engine *)
(* ===================================================================== *)

(** ** The general branch of the moment-matching root function *)

Section BetaDivisor.
Local Open Scope np_scope.

(** X3: whenever [fn_for_beta] takes its general branch on a finite [x],
    that is for [x >= 1e-14], the divisor [1 - exp(-x)] is a positive
    number, so the quotient is not a division by zero, whatever the ratio
    is; and [x = 0] is a root for every finite ratio. *)
Theorem fn_for_beta_divisor_positive (x : R) (r : npfloat) :
  (1e-14 <= x)%R ->
  (exists d,
     (0 < d)%R /\
     Fin 1 - Np.exp (- Fin x) = Fin d /\
     fn_for_beta (Fin x) r = Fin x / Fin d - Fin 1 - Fin x * r) /\
  (forall r0 : R, fn_for_beta (Fin 0) (Fin r0) = Fin 0).
Proof.
  intros Hx. split.
  - assert (- x < 0)%R as Hneg by lra.
    pose proof (exp_increasing _ _ Hneg) as Hexp. rewrite exp_0 in Hexp.
    exists (1 - exp (- x))%R. split; [lra |]. split; [reflexivity |].
    rewrite fn_for_beta_above_threshold by (apply NpFacts.ltb_Fin_false; lra).
    reflexivity.
  - intros r0.
    rewrite fn_for_beta_below_threshold by (apply NpFacts.ltb_Fin_true; lra).
    cbn. f_equal. lra.
Qed.

Lemma fn_for_beta_divisor_positive_witness :
  (exists d,
     (0 < d)%R /\
     Fin 1 - Np.exp (- Fin 2) = Fin d /\
     fn_for_beta (Fin 2) (Fin 0) = Fin 2 / Fin d - Fin 1 - Fin 2 * Fin 0) /\
  (forall r0 : R, fn_for_beta (Fin 0) (Fin r0) = Fin 0).
Proof. apply (fn_for_beta_divisor_positive 2 (Fin 0)). lra. Defined.

End BetaDivisor.

(** ** More on the chain builder *)

Module LoopFacts.

(** Two loop bodies that agree on the visited indices give the same loop. *)
Lemma for_in_ext {A St} (xs : list A) (f g : A -> St -> result St) : forall s,
  (forall a, In a xs -> forall s', f a s' = g a s') ->
  for_in xs f s = for_in xs g s.
Proof.
  induction xs as [| a xs IH]; intros s H; [reflexivity |].
  simpl. rewrite (H a (or_introl eq_refl)).
  destruct (g a s) as [s1 |]; [| reflexivity].
  rewrite !bind_Ok. apply IH. intros b Hb. apply H. right. exact Hb.
Qed.

(** A subscript at or above one skips the head of the array. *)
Lemma getitem_cons_pos {A} (a : A) (l : list A) (k : Z) :
  (1 <= k)%Z -> Py.getitem (a :: l) k = Py.getitem l (k - 1).
Proof.
  intros Hk. unfold Py.getitem, Py.position. cbn [length].
  destruct (decide (0 <= k < Z.of_nat (S (length l)))%Z) as [Hin | Hout].
  - rewrite (decide_True (P := (0 <= k - 1 < Z.of_nat (length l))%Z)) by lia.
    replace (Z.to_nat k) with (S (Z.to_nat (k - 1))) by lia.
    reflexivity.
  - rewrite (decide_False (P := (- Z.of_nat (S (length l)) <= k < 0)%Z)) by lia.
    rewrite (decide_False (P := (0 <= k - 1 < Z.of_nat (length l))%Z)) by lia.
    rewrite (decide_False (P := (- Z.of_nat (length l) <= k - 1 < 0)%Z)) by lia.
    reflexivity.
Qed.

(** [range(start, stop, -1)] is strictly decreasing. *)
Lemma range_down_decreasing start stop :
  StronglySorted (fun i j => (j < i)%Z) (Py.range_down start stop).
Proof.
  unfold Py.range_down. generalize (Z.to_nat (start - stop)) as m.
  generalize 0%nat as a. intros a m. revert a.
  induction m as [| m IH]; intros a; [constructor |].
  cbn [seq map]. constructor; [apply IH |].
  apply List.Forall_forall. intros j Hj.
  apply in_map_iff in Hj as (k & <- & Hk). apply in_seq in Hk. lia.
Qed.

End LoopFacts.

Section ChainRecurrence.
Local Open Scope np_scope.

Variable root : (npfloat -> result npfloat) -> list npfloat -> result OptimizeResult.t.

(** What one turn writes. *)
Lemma chain_step_writes eb lnw i (S S' : list npfloat) :
  (2 <= i < Py.len S)%Z ->
  chain_step root eb lnw i S = Ok S' ->
  exists S_i v,
    S !! Z.to_nat i = Some S_i /\
    optimize_bin_entropy root i eb lnw S_i = Ok v /\
    S' = <[Z.to_nat (i - 1) := v]> S.
Proof.
  unfold chain_step. intros Hi H.
  destruct (PyFacts.getitem_in_range S i) as (S_i & HS_i & Hlook); [lia |].
  rewrite HS_i, bind_Ok in H.
  apply bind_Ok_inv in H as (v & Hv & H).
  rewrite PyFacts.setitem_in_range in H by lia.
  injection H as <-. eauto.
Qed.

(** After a decreasing run of turns, every visited bin [i] has its solve
    recorded: position [i - 1] holds the answer for the value at position
    [i]; positions that are no [i - 1] are untouched. *)
Lemma chain_loop_records eb lnw (idx : list Z) : forall (S S' : list npfloat),
  StronglySorted (fun i j => (j < i)%Z) idx ->
  List.Forall (fun i => (2 <= i < Py.len S)%Z) idx ->
  for_in idx (chain_step root eb lnw) S = Ok S' ->
  (forall k : nat, (forall i, In i idx -> k <> Z.to_nat (i - 1)) -> S' !! k = S !! k) /\
  (forall i, In i idx ->
     exists S_i S_prev,
       S' !! Z.to_nat i = Some S_i /\
       S' !! Z.to_nat (i - 1) = Some S_prev /\
       optimize_bin_entropy root i eb lnw S_i = Ok S_prev).
Proof.
  induction idx as [| i idx IH]; intros S S' Hsorted Hall H.
  - injection H as <-. split; [reflexivity | intros i []].
  - apply StronglySorted_inv in Hsorted as [Hsorted Hbelow].
    apply List.Forall_cons_iff in Hall as [Hi Hall].
    simpl in H. apply bind_Ok_inv in H as (S1 & Hstep & Hrest).
    destruct (chain_step_writes eb lnw i S S1 Hi Hstep) as (S_i & v & HS_i & Hv & ->).
    assert (Py.len (<[Z.to_nat (i - 1) := v]> S) = Py.len S) as Hlen
      by (unfold Py.len; rewrite length_insert; reflexivity).
    apply IH in Hrest as [Hframe Hrec]; [| exact Hsorted | rewrite Hlen; exact Hall].
    rewrite List.Forall_forall in Hbelow.
    split.
    + intros k Hk. rewrite Hframe by (intros j Hj; apply Hk; right; exact Hj).
      apply list_lookup_insert_ne. intros Heq. apply (Hk i (or_introl eq_refl)).
      symmetry. exact Heq.
    + intros j [<- | Hj]; [| apply Hrec; exact Hj].
      exists S_i, v. split; [| split; [| exact Hv]].
      * rewrite Hframe.
        -- rewrite list_lookup_insert_ne by lia. exact HS_i.
        -- intros j Hj. specialize (Hbelow j Hj).
           rewrite List.Forall_forall in Hall. specialize (Hall j Hj). lia.
      * rewrite Hframe.
        -- apply list_lookup_insert_eq. unfold Py.len in Hi. lia.
        -- intros j Hj. specialize (Hbelow j Hj).
           rewrite List.Forall_forall in Hall. specialize (Hall j Hj). lia.
Qed.

(** X6: the recurrence of the chain.  In what the chain builder returns,
    every bin [i] from 2 to the last has the entropy at boundary [i - 1]
    equal to the solver's answer for that bin, given the entropy at
    boundary [i]. *)
Theorem chain_links_adjacent_boundaries Smin eb lnw (S : list npfloat) (i : Z) :
  compute_entropy_given_Smin root Smin eb lnw = Ok S ->
  (2 <= i < Py.len eb)%Z ->
  exists S_i S_prev,
    S.[i] = Ok S_i /\
    S.[i - 1] = Ok S_prev /\
    optimize_bin_entropy root i eb lnw S_i = Ok S_prev.
Proof.
  intros H Hi. pose proof (chain_shape root _ _ _ _ H) as (Hlen & _).
  unfold compute_entropy_given_Smin in H.
  apply bind_Ok_inv in H as (S0 & Hset & Hloop).
  pose proof (PyFacts.setitem_length _ _ _ _ Hset) as Hlen0.
  assert (length (Np.zeros_like eb) = length eb) as Hz
    by (unfold Np.zeros_like; apply length_map).
  apply chain_loop_records in Hloop as [_ Hrec].
  - destruct (Hrec i) as (S_i & S_prev & H1 & H2 & H3).
    { unfold Py.range_down. apply in_map_iff.
      exists (Z.to_nat (Py.len eb - 1 - i)). split; [lia |].
      apply in_seq. unfold Py.len in *. lia. }
    exists S_i, S_prev. split; [| split; [| exact H3]].
    + replace i with (Z.of_nat (Z.to_nat i)) by lia.
      apply PyFacts.getitem_nat. exact H1.
    + replace (i - 1)%Z with (Z.of_nat (Z.to_nat (i - 1))) by lia.
      apply PyFacts.getitem_nat. exact H2.
  - apply LoopFacts.range_down_decreasing.
  - eapply List.Forall_impl; [| apply (chain_indices eb)].
    simpl. unfold Py.len. rewrite Hlen0, Hz. auto.
Qed.

(** X7: the chain builder never reads the first boundary, nor the first
    two log-weights: changing them changes nothing in what it returns or
    raises. *)
Theorem chain_ignores_first_boundary Smin e0 e0' (rest : list npfloat)
    w0 w1 w0' w1' (lrest : list npfloat) :
  compute_entropy_given_Smin root Smin (e0 :: rest) (w0 :: w1 :: lrest) =
  compute_entropy_given_Smin root Smin (e0' :: rest) (w0' :: w1' :: lrest).
Proof.
  unfold compute_entropy_given_Smin.
  change (Np.zeros_like (e0 :: rest)) with (Np.zeros_like (e0' :: rest)).
  change (Py.len (e0 :: rest)) with (Py.len (e0' :: rest)).
  destruct (Py.setitem _ (-1) Smin) as [S0 |]; [| reflexivity].
  rewrite !bind_Ok. apply LoopFacts.for_in_ext.
  intros i Hi S.
  pose proof (PyFacts.range_down_bounds (Py.len (e0' :: rest) - 1) 1) as Hb.
  rewrite List.Forall_forall in Hb. specialize (Hb i Hi).
  unfold chain_step, optimize_bin_entropy.
  rewrite !(LoopFacts.getitem_cons_pos _ _ (i - 1)) by lia.
  rewrite !(LoopFacts.getitem_cons_pos _ _ i) by lia.
  rewrite !(LoopFacts.getitem_cons_pos _ lrest (i - 1)) by lia.
  reflexivity.
Qed.

(** X8: a bin whose two boundaries are not in descending order stops the
    chain.  With three boundaries or more, log-weights for every bin and a
    solver that evaluates the residual at its starting point, finite last
    boundaries [a <= b] make the chain builder raise [AssertionError]. *)
Theorem chain_refuses_ascending_bin Smin (pre : list npfloat) (a b : R)
    (lnw : list npfloat) :
  solver_probes root ->
  pre <> [] ->
  (length pre + 2 <= length lnw)%nat ->
  (a <= b)%R ->
  compute_entropy_given_Smin root Smin (pre ++ [Fin a; Fin b]) lnw
    = Raise AssertionError.
Proof.
  intros Hprobe Hpre Hlnw Hab. unfold compute_entropy_given_Smin.
  assert (length (pre ++ [Fin a; Fin b]) = length pre + 2)%nat as Hlen
    by (rewrite length_app; reflexivity).
  assert (0 < length pre)%nat as Hpos by (destruct pre; [congruence | simpl; lia]).
  assert (length (Np.zeros_like (pre ++ [Fin a; Fin b])) = length pre + 2)%nat as Hz
    by (unfold Np.zeros_like; rewrite length_map; exact Hlen).
  unfold Py.setitem at 1. rewrite Hz, PyFacts.position_last by lia.
  rewrite bind_Ok.
  unfold Py.range_down, Py.len. rewrite Hlen.
  replace (Z.to_nat (Z.of_nat (length pre + 2) - 1 - 1)) with (S (length pre - 1)) by lia.
  cbn [seq map for_in]. rewrite Z.sub_0_r.
  set (S0 := <[(length pre + 2 - 1)%nat := Smin]> (Np.zeros_like (pre ++ [Fin a; Fin b]))).
  set (i := (Z.of_nat (length pre + 2) - 1)%Z).
  assert (chain_step root (pre ++ [Fin a; Fin b]) lnw i S0 = Raise AssertionError)
    as Hstep.
  { unfold chain_step, optimize_bin_entropy.
    destruct (PyFacts.getitem_in_range S0 i) as (S_i & -> & _).
    { unfold S0, Py.len, i. rewrite length_insert, Hz. lia. }
    rewrite bind_Ok.
    rewrite (getitem_app_offset pre _ 0 (Fin a) (i - 1)) by (reflexivity || (unfold i; lia)).
    rewrite (getitem_app_offset pre _ 1 (Fin b) i) by (reflexivity || (unfold i; lia)).
    destruct (PyFacts.getitem_in_range lnw i) as (lnw_i & -> & _).
    { unfold Py.len, i. lia. }
    rewrite !bind_Ok.
    rewrite (Hprobe _ AssertionError); [reflexivity |].
    apply fn_entropy_asserts_width. rewrite sub_Fin.
    apply NpFacts.ltb_Fin_false. lra. }
  rewrite Hstep. reflexivity.
Qed.

(** X27: the first turn reads the log-weight at the last boundary index,
    before any solve: with three boundaries or more and fewer log-weights
    than boundaries the chain builder raises [IndexError], whatever the
    solver. *)
Theorem chain_needs_log_weight_per_boundary Smin (eb lnw : list npfloat) :
  (3 <= length eb)%nat ->
  (length lnw < length eb)%nat ->
  compute_entropy_given_Smin root Smin eb lnw = Raise IndexError.
Proof.
  intros Hlen Hlnw. unfold compute_entropy_given_Smin.
  assert (length (Np.zeros_like eb) = length eb) as Hz
    by (unfold Np.zeros_like; apply length_map).
  unfold Py.setitem at 1. rewrite Hz, PyFacts.position_last by lia.
  rewrite bind_Ok.
  unfold Py.range_down, Py.len.
  replace (Z.to_nat (Z.of_nat (length eb) - 1 - 1)) with (S (length eb - 3)) by lia.
  cbn [seq map for_in]. rewrite Z.sub_0_r.
  set (S0 := <[(length eb - 1)%nat := Smin]> (Np.zeros_like eb)).
  set (i := (Z.of_nat (length eb) - 1)%Z).
  assert (chain_step root eb lnw i S0 = Raise IndexError) as Hstep.
  { unfold chain_step, optimize_bin_entropy.
    destruct (PyFacts.getitem_in_range S0 i) as (S_i & -> & _).
    { unfold S0, Py.len, i. rewrite length_insert, Hz. lia. }
    destruct (PyFacts.getitem_in_range eb (i - 1)) as (E_i_1 & -> & _).
    { unfold Py.len, i. lia. }
    destruct (PyFacts.getitem_in_range eb i) as (E_i & -> & _).
    { unfold Py.len, i. lia. }
    rewrite !bind_Ok.
    rewrite (PyFacts.getitem_out_of_range lnw i) by (unfold Py.len, i; lia).
    reflexivity. }
  rewrite Hstep. reflexivity.
Qed.

End ChainRecurrence.

Lemma probing_root_probes : solver_probes probing_root.
Proof. intros f e H. unfold probing_root. rewrite H. reflexivity. Qed.

Lemma chain_links_adjacent_boundaries_witness :
  exists S_i S_prev,
    Py.getitem [Fin 0; Fin 9; Fin 7] 2 = Ok S_i /\
    Py.getitem [Fin 0; Fin 9; Fin 7] (2 - 1) = Ok S_prev /\
    optimize_bin_entropy (fixed_root (Fin 9)) 2 [Fin 2; Fin 1; Fin 0]
      [Fin 0; Fin 0; Fin 0] S_i = Ok S_prev.
Proof.
  apply (chain_links_adjacent_boundaries (fixed_root (Fin 9)) (Fin 7)
           [Fin 2; Fin 1; Fin 0] [Fin 0; Fin 0; Fin 0] [Fin 0; Fin 9; Fin 7] 2).
  - reflexivity.
  - unfold Py.len. simpl. lia.
Defined.

Lemma chain_refuses_ascending_bin_witness :
  compute_entropy_given_Smin probing_root (Fin 0) ([Fin 0] ++ [Fin 1; Fin 2])
    [Fin 0; Fin 0; Fin 0] = Raise AssertionError.
Proof.
  apply (chain_refuses_ascending_bin probing_root (Fin 0) [Fin 0] 1 2
           [Fin 0; Fin 0; Fin 0]).
  - exact probing_root_probes.
  - discriminate.
  - simpl. lia.
  - lra.
Defined.

Lemma chain_needs_log_weight_per_boundary_witness :
  compute_entropy_given_Smin settled_root (Fin 0) [Fin 2; Fin 1; Fin 0] [Fin 0; Fin 0]
    = Raise IndexError.
Proof.
  apply (chain_needs_log_weight_per_boundary settled_root (Fin 0)
           [Fin 2; Fin 1; Fin 0] [Fin 0; Fin 0]); simpl; lia.
Defined.

(** ** More on the penalty and the optimizer *)

Section PenaltyBounds.
Local Open Scope np_scope.

Lemma not_negative_add a b :
  (a <? Fin 0) = false -> (b <? Fin 0) = false -> (a + b <? Fin 0) = false.
Proof.
  destruct a as [r | | |], b as [s | | |]; simpl; try reflexivity; try discriminate.
  destruct (Rlt_dec r 0), (Rlt_dec s 0); try discriminate.
  intros _ _. destruct (Rlt_dec (r + s) 0); [lra | reflexivity].
Qed.

Lemma not_negative_abs a : (Np.abs a <? Fin 0) = false.
Proof.
  destruct a as [r | | |]; simpl; try reflexivity.
  pose proof (Rabs_pos r). destruct (Rlt_dec (Rabs r) 0); [lra | reflexivity].
Qed.

Lemma interior_jumps_not_negative (E : list npfloat) : forall S : list npfloat,
  List.Forall (fun t => (t <? Fin 0) = false) (interior_jumps E S).
Proof.
  induction E as [| e0 E IH]; intros S; [constructor |].
  destruct S as [| s0 S]; [destruct E as [| ? [| ? ?]]; constructor |].
  destruct E as [| e1 [| e2 E]]; [constructor | constructor |].
  destruct S as [| s1 [| s2 S]]; [constructor | constructor |].
  simpl. constructor; [apply not_negative_abs | apply (IH (s1 :: s2 :: S))].
Qed.

Lemma sum_not_negative (ts : list npfloat) : forall acc,
  (acc <? Fin 0) = false ->
  List.Forall (fun t => (t <? Fin 0) = false) ts ->
  (fold_left Np.add ts acc <? Fin 0) = false.
Proof.
  induction ts as [| t ts IH]; intros acc Hacc Hall; [exact Hacc |].
  apply List.Forall_cons_iff in Hall as [Ht Hall].
  simpl. apply IH; [apply not_negative_add; assumption | exact Hall].
Qed.

Variable root : (npfloat -> result npfloat) -> list npfloat -> result OptimizeResult.t.
Variable minimize_scalar : (npfloat -> result npfloat) -> result MinimizeResult.t.

(** The penalty of a chain that was built. *)
Lemma badness_of_chain Smin eb lnw (S : list npfloat) :
  compute_entropy_given_Smin root Smin eb lnw = Ok S ->
  entropy_boundary_badness root Smin eb lnw = Ok (smoothness_penalty eb S).
Proof.
  intros Hchain. unfold entropy_boundary_badness. rewrite Hchain, bind_Ok.
  apply chain_shape in Hchain as (Hlen & _).
  pose proof (badness_loop_jumps eb S [] [] (Fin 0) eq_refl (eq_sym Hlen)) as Hloop.
  cbn [app length] in Hloop.
  unfold smoothness_penalty, Py.range, Py.len.
  replace (Z.to_nat (Z.of_nat (length eb) - 2)) with (length eb - 2)%nat by lia.
  exact Hloop.
Qed.

(** X9: the penalty is never negative: whatever the solver, the anchor and
    the arrays, a penalty that is returned is not below zero (it is a
    non-negative number, [+inf] or [nan]). *)
Theorem badness_never_negative Smin eb lnw (v : npfloat) :
  entropy_boundary_badness root Smin eb lnw = Ok v ->
  (v <? Fin 0) = false /\ v <> NInf.
Proof.
  intros H.
  destruct (compute_entropy_given_Smin root Smin eb lnw) as [S | e] eqn:Hchain.
  - rewrite (badness_of_chain _ _ _ _ Hchain) in H. injection H as <-.
    assert ((smoothness_penalty eb S <? Fin 0) = false) as Hnn.
    { apply sum_not_negative; [| apply interior_jumps_not_negative].
      apply NpFacts.ltb_Fin_false. lra. }
    split; [exact Hnn |]. intros Heq. rewrite Heq in Hnn. discriminate.
  - unfold entropy_boundary_badness in H. rewrite Hchain in H. discriminate.
Qed.

(** X10: with one or two boundaries there is no interior boundary: the
    penalty is zero for every anchor, solver and log-weight array, so the
    minimizer is handed a constant objective. *)
Theorem badness_flat_without_interior Smin (eb lnw : list npfloat) :
  (1 <= length eb <= 2)%nat ->
  entropy_boundary_badness root Smin eb lnw = Ok (Fin 0).
Proof.
  intros Hlen.
  destruct eb as [| e0 [| e1 [| e2 eb]]]; simpl in Hlen; try lia; reflexivity.
Qed.

(** X11: what [optimize_entropy] returns is as long as the boundary array
    and ends with the [x] of the minimizer's answer. *)
Theorem optimize_entropy_shape eb lnw (S : list npfloat) :
  optimize_entropy root minimize_scalar eb lnw = Ok S ->
  exists res,
    minimize_scalar (fun Smin => entropy_boundary_badness root Smin eb lnw) = Ok res /\
    length S = length eb /\
    S.[-1] = Ok (MinimizeResult.x res).
Proof.
  unfold optimize_entropy. intros H.
  apply bind_Ok_inv in H as (res & Hres & Hchain).
  exists res. split; [exact Hres |].
  apply chain_shape in Hchain as (Hlen & Hlast & _). auto.
Qed.

End PenaltyBounds.

Lemma badness_never_negative_witness :
  (Fin 5.5 <? Fin 0)%np = false /\ Fin 5.5 <> NInf.
Proof.
  apply (badness_never_negative (fixed_root (Fin 9)) (Fin 7)
           [Fin 2; Fin 1; Fin 0] [Fin 0; Fin 0; Fin 0] (Fin 5.5)).
  exact badness_three_boundaries.
Defined.

Lemma badness_flat_without_interior_witness :
  entropy_boundary_badness stalled_root (Fin 3) [Fin 1; Fin 0] [] = Ok (Fin 0).
Proof.
  apply (badness_flat_without_interior stalled_root (Fin 3) [Fin 1; Fin 0] []).
  simpl. lia.
Defined.

Lemma optimize_entropy_shape_witness :
  exists res,
    one_shot_minimizer (Fin 7)
      (fun Smin => entropy_boundary_badness (fixed_root (Fin 9)) Smin
                     [Fin 2; Fin 1; Fin 0] [Fin 0; Fin 0; Fin 0]) = Ok res /\
    length [Fin 0; Fin 9; Fin 7] = length [Fin 2; Fin 1; Fin 0] /\
    Py.getitem [Fin 0; Fin 9; Fin 7] (-1) = Ok (MinimizeResult.x res).
Proof.
  apply (optimize_entropy_shape (fixed_root (Fin 9)) (one_shot_minimizer (Fin 7))
           [Fin 2; Fin 1; Fin 0] [Fin 0; Fin 0; Fin 0] [Fin 0; Fin 9; Fin 7]).
  reflexivity.
Defined.

(** ** More on the loading loop *)

Module OrderFacts.

Lemma ltb_asym a b : Np.ltb a b = true -> Np.ltb b a = false.
Proof.
  destruct a as [r | | |], b as [s | | |]; simpl; try reflexivity; try discriminate.
  destruct (Rlt_dec r s); [| discriminate].
  intros _. destruct (Rlt_dec s r); [lra | reflexivity].
Qed.

Lemma ltb_irrefl a : Np.ltb a a = false.
Proof.
  destruct a as [r | | |]; simpl; try reflexivity.
  destruct (Rlt_dec r r); [lra | reflexivity].
Qed.

Lemma getitem_rev_last {A} (a : A) (l : list A) : Py.getitem (rev (a :: l)) (-1) = Ok a.
Proof.
  apply PyFacts.getitem_last. cbn [rev].
  rewrite length_app. cbn [length].
  replace (length (rev l) + 1 - 1)%nat with (length (rev l)) by lia.
  apply list_lookup_middle. reflexivity.
Qed.

Lemma getitem_rev_first {A} (a : A) (l : list A) :
  Py.getitem (rev (a :: l)) 0 = Ok (List.last l a).
Proof.
  change 0%Z with (Z.of_nat 0). apply PyFacts.getitem_nat.
  rewrite rev_alt. change (rev_append (a :: l) []) with (reverse (a :: l)).
  rewrite reverse_lookup by (simpl; lia). cbn [length].
  replace (S (length l) - 1)%nat with (length l) by lia.
  apply lookup_last_cons.
Qed.

End OrderFacts.

Section LoaderOrder.
Local Open Scope np_scope.

Variable root : (npfloat -> result npfloat) -> list npfloat -> result OptimizeResult.t.
Variable minimize_scalar : (npfloat -> result npfloat) -> result MinimizeResult.t.

(** X12: what the loading loop stores is in descending order at its ends:
    the first stored boundary is not below the last.  The three sequences
    are stored as read or all three reversed, never a mixture, and the
    entropy array is as long as the boundary array. *)
Theorem load_snapshot_descending dat me_dat lnw_dat (snap : snapshot) :
  load_snapshot root minimize_scalar dat me_dat lnw_dat = Ok snap ->
  exists first last,
    (energy_boundaries snap).[0] = Ok first /\
    (energy_boundaries snap).[-1] = Ok last /\
    (first <? last) = false /\
    ((energy_boundaries snap = one_dimensional dat /\
      mean_energy snap = me_dat /\ lnw snap = lnw_dat) \/
     (energy_boundaries snap = rev (one_dimensional dat) /\
      mean_energy snap = rev me_dat /\ lnw snap = rev lnw_dat)) /\
    length (entropy_boundaries snap) = length (energy_boundaries snap).
Proof.
  unfold load_snapshot.
  change (match dat with Array0 v => [v] | Array1 a => a end)
    with (one_dimensional dat).
  destruct (one_dimensional dat) as [| e0 rest]; [discriminate |].
  rewrite getitem_first, getitem_last_cons, !bind_Ok.
  unfold Np.flip_array.
  destruct (e0 <? List.last rest e0) eqn:Hasc; intros H;
    apply bind_Ok_inv in H as (S & Hopt & H); injection H as <-;
    cbn [energy_boundaries mean_energy lnw entropy_boundaries];
    unfold optimize_entropy in Hopt;
    apply bind_Ok_inv in Hopt as (res & _ & Hchain);
    apply chain_shape in Hchain as (Hlen & _).
  - exists (List.last rest e0), e0.
    change (rev rest ++ [e0]) with (rev (e0 :: rest)) in *.
    rewrite OrderFacts.getitem_rev_first, OrderFacts.getitem_rev_last.
    repeat split; auto using OrderFacts.ltb_asym.
  - exists e0, (List.last rest e0).
    rewrite getitem_first, getitem_last_cons.
    repeat split; auto.
Qed.

(** X13: a boundary file with a single value is wrapped into a one-element
    array: the loop then hands the minimizer the constant objective zero,
    makes no solve, and stores the minimizer's [x] as the only entropy. *)
Theorem load_snapshot_single_value (v : npfloat) me_dat lnw_dat :
  load_snapshot root minimize_scalar (Array0 v) me_dat lnw_dat =
    (res ← minimize_scalar (fun _ => Ok (Fin 0));
     Ok (mk_snapshot [v] me_dat lnw_dat [MinimizeResult.x res])).
Proof.
  unfold load_snapshot.
  rewrite getitem_first, getitem_last_cons, !bind_Ok. cbn [List.last].
  rewrite OrderFacts.ltb_irrefl.
  unfold optimize_entropy.
  change (fun Smin => entropy_boundary_badness root Smin [v] lnw_dat)
    with (fun _ : npfloat => Ok (Fin 0) : result npfloat).
  destruct (minimize_scalar _) as [res |]; reflexivity.
Qed.

End LoaderOrder.

Lemma load_snapshot_descending_witness :
  exists first last,
    Py.getitem [Fin 2; Fin 1; Fin 0] 0 = Ok first /\
    Py.getitem [Fin 2; Fin 1; Fin 0] (-1) = Ok last /\
    (first <? last)%np = false /\
    (([Fin 2; Fin 1; Fin 0] = [Fin 0; Fin 1; Fin 2] /\
      [Fin 8; Fin 6] = [Fin 6; Fin 8] /\
      [Fin 0; Fin 0; Fin 0] = [Fin 0; Fin 0; Fin 0]) \/
     ([Fin 2; Fin 1; Fin 0] = rev [Fin 0; Fin 1; Fin 2] /\
      [Fin 8; Fin 6] = rev [Fin 6; Fin 8] /\
      [Fin 0; Fin 0; Fin 0] = rev [Fin 0; Fin 0; Fin 0])) /\
    length [Fin 0; Fin 9; Fin 7] = length [Fin 2; Fin 1; Fin 0].
Proof.
  apply (load_snapshot_descending (fixed_root (Fin 9)) (one_shot_minimizer (Fin 7))
           (Array1 [Fin 0; Fin 1; Fin 2]) [Fin 6; Fin 8] [Fin 0; Fin 0; Fin 0]
           (mk_snapshot [Fin 2; Fin 1; Fin 0] [Fin 8; Fin 6] [Fin 0; Fin 0; Fin 0]
              [Fin 0; Fin 9; Fin 7])).
  unfold load_snapshot.
  rewrite getitem_first, getitem_last_cons, !bind_Ok. cbn [List.last].
  rewrite NpFacts.ltb_Fin_true by lra.
  reflexivity.
Defined.

(** ** Extension stripping *)

Module StrFacts.

Lemma prefix_refl (n : string) : String.prefix n n = true.
Proof.
  induction n as [| a n IH]; simpl.
  - destruct (string_dec "" ""); congruence.
  - destruct (ascii_dec a a) as [_ | Hne]; [exact IH | contradiction].
Qed.

Lemma contains_suffix (needle s : string) : Str.contains needle (s ++ needle) = true.
Proof.
  induction s as [| a s IH].
  - destruct needle as [| c n]; [reflexivity |].
    change (Str.contains (String c n) (String c n) = true).
    cbn [Str.contains]. rewrite prefix_refl. reflexivity.
  - change (Str.contains needle (String a (s ++ needle)) = true).
    cbn [Str.contains]. rewrite IH. apply orb_true_r.
Qed.

Lemma chars_app (s t : string) : Str.chars (s ++ t) = Str.chars s ++ Str.chars t.
Proof.
  unfold Str.chars. induction s as [| a s IH]; simpl; [reflexivity |].
  rewrite IH. reflexivity.
Qed.

Lemma length_chars (s : string) : length (Str.chars s) = String.length s.
Proof.
  unfold Str.chars. induction s as [| a s IH]; simpl; [reflexivity | rewrite IH; reflexivity].
Qed.

Lemma of_chars_chars (s : string) : Str.of_chars (Str.chars s) = s.
Proof. apply string_of_list_ascii_of_string. Qed.

Lemma drop_last5_app (s ext : string) :
  String.length ext = 5%nat -> Str.drop_last5 (s ++ ext) = s.
Proof.
  intros Hext. unfold Str.drop_last5, Str.upto.
  rewrite chars_app, <- length_chars, chars_app, length_app, !length_chars, Hext.
  replace (Z.to_nat (Z.of_nat (String.length s + 5) - 5)) with (length (Str.chars s))
    by (rewrite length_chars; lia).
  rewrite take_app_length. apply of_chars_chars.
Qed.

End StrFacts.

(** X14: a base that ends in [.cbor] or in [.yaml] loses exactly that
    extension. *)
Theorem strip_extension_removes_suffix (stem : string) :
  strip_extension (stem ++ ".cbor") = stem /\
  strip_extension (stem ++ ".yaml") = stem.
Proof.
  unfold strip_extension. split.
  - rewrite StrFacts.contains_suffix. cbn [orb].
    apply StrFacts.drop_last5_app. reflexivity.
  - rewrite (StrFacts.contains_suffix ".yaml"), orb_true_r.
    apply StrFacts.drop_last5_app. reflexivity.
Qed.

(** ** Reference density-of-states functions *)

Module HeavisideFacts.

Lemma heaviside_pos r h : (0 < r)%R -> Np.heaviside (Fin r) h = Fin 1.
Proof.
  intros H. unfold Np.heaviside.
  rewrite NpFacts.ltb_Fin_false by lra.
  simpl. destruct (Req_dec_T r 0); [lra | reflexivity].
Qed.

Lemma heaviside_neg r h : (r < 0)%R -> Np.heaviside (Fin r) h = Fin 0.
Proof.
  intros H. unfold Np.heaviside.
  rewrite NpFacts.ltb_Fin_true by lra. reflexivity.
Qed.

Lemma mul_NaN_r a : Np.mul a NaN = NaN.
Proof. destruct a; reflexivity. Qed.

End HeavisideFacts.

Section ReferenceProperties.
Local Open Scope np_scope.

(** X15: at every energy strictly between 0 and 1, the range of the
    evaluation grid, the linear reference density is 1 and its exact
    entropy is 0. *)
Theorem linear_density_inside (E : R) :
  (0 < E < 1)%R ->
  linear_density_of_states (Fin E) = Fin 1 /\
  exact_entropy Linear (Fin E) = Some (Fin 0).
Proof.
  intros [H0 H1].
  assert (linear_density_of_states (Fin E) = Fin 1) as Hd.
  { unfold linear_density_of_states. rewrite sub_Fin.
    rewrite !HeavisideFacts.heaviside_pos by lra.
    simpl. f_equal. lra. }
  split; [exact Hd |].
  unfold exact_entropy, call. rewrite Hd. cbn [option_map].
  rewrite NpFacts.log_Fin_pos by lra. rewrite ln_1. reflexivity.
Qed.

Lemma linear_density_inside_witness :
  linear_density_of_states (Fin 0.5) = Fin 1 /\
  exact_entropy Linear (Fin 0.5) = Some (Fin 0).
Proof. apply (linear_density_inside 0.5). lra. Defined.

(** X16: at every energy strictly between 0 and 1 the quadratic reference
    density is [1.5 * sqrt(E)], and its exact entropy the (finite)
    logarithm of that. *)
Theorem quadratic_density_inside (E : R) :
  (0 < E < 1)%R ->
  quadratic_density_of_states (Fin E) = Fin (1.5 * sqrt E) /\
  exact_entropy Quadratic (Fin E) = Some (Fin (ln (1.5 * sqrt E))).
Proof.
  intros [H0 H1].
  assert (quadratic_density_of_states (Fin E) = Fin (1.5 * sqrt E)) as Hd.
  { unfold quadratic_density_of_states. rewrite sub_Fin.
    rewrite !HeavisideFacts.heaviside_pos by lra.
    cbn [Np.sqrt]. destruct (Rlt_dec E 0) as [Hneg | _]; [lra |].
    simpl. f_equal. lra. }
  split; [exact Hd |].
  unfold exact_entropy, call. rewrite Hd. cbn [option_map].
  pose proof (sqrt_lt_R0 E H0).
  rewrite NpFacts.log_Fin_pos by lra. reflexivity.
Qed.

Lemma quadratic_density_inside_witness :
  quadratic_density_of_states (Fin 0.25) = Fin (1.5 * sqrt 0.25) /\
  exact_entropy Quadratic (Fin 0.25) = Some (Fin (ln (1.5 * sqrt 0.25))).
Proof. apply (quadratic_density_inside 0.25). lra. Defined.

(** X17: below zero the quadratic reference density is [nan], not zero:
    the square root of a negative energy is [nan], and the zero of the
    step function does not mask it. *)
Theorem quadratic_density_below_zero (E : R) :
  (E < 0)%R -> quadratic_density_of_states (Fin E) = NaN.
Proof.
  intros H. unfold quadratic_density_of_states.
  cbn [Np.sqrt]. destruct (Rlt_dec E 0) as [_ | Hge]; [| lra].
  rewrite HeavisideFacts.mul_NaN_r. reflexivity.
Qed.

Lemma quadratic_density_below_zero_witness :
  quadratic_density_of_states (Fin (-1)) = NaN.
Proof. apply (quadratic_density_below_zero (-1)). lra. Defined.

(** X18: at every positive energy, so on the whole evaluation grid, the
    Gaussian reference density is [nan] for every [sigma] whose cube is a
    float (up to the largest one, about 1.8e308; beyond it Python's
    [sigma**3] raises, which is outside this model): the function takes
    the logarithm of [-1/E], which is negative there. *)
Theorem gaussian_density_positive_energy (sigma E : R) :
  (0 < E)%R ->
  (Rabs (sigma * sigma * sigma) <= 1.7976931348623157e308)%R ->
  gaussian_density_of_states (Fin sigma) (Fin E) = NaN /\
  exact_entropy (Gaussian (Fin sigma)) (Fin E) = Some NaN.
Proof.
  intros H _.
  assert (gaussian_density_of_states (Fin sigma) (Fin E) = NaN) as Hd.
  { unfold gaussian_density_of_states.
    rewrite NpFacts.div_Fin by lra.
    rewrite NpFacts.log_Fin_neg.
    - rewrite HeavisideFacts.mul_NaN_r. cbn [Np.sqrt].
      rewrite ?HeavisideFacts.mul_NaN_r. reflexivity.
    - apply Rdiv_neg_pos; lra. }
  split; [exact Hd |].
  unfold exact_entropy, call. rewrite Hd. reflexivity.
Qed.

Lemma gaussian_density_positive_energy_witness :
  gaussian_density_of_states (Fin 1) (Fin 0.5) = NaN /\
  exact_entropy (Gaussian (Fin 1)) (Fin 0.5) = Some NaN.
Proof.
  apply (gaussian_density_positive_energy 1 0.5); [lra |].
  rewrite Rabs_pos_eq; lra.
Defined.

(** X20: the piecewise reference function falls off its end, returning
    Python's [None], exactly at the finite energies that are neither above
    zero nor above [-e2]. *)
Theorem piecewise_density_none (a b e1 : npfloat) (e2 E : R) :
  piecewise_density_of_states a b e1 (Fin e2) (Fin E) = None
  <-> (E <= 0 /\ E <= - e2)%R.
Proof.
  unfold piecewise_density_of_states, Np.gtb. cbn [Np.neg Np.ltb].
  destruct (Rlt_dec 0 E) as [Hpos | Hnpos].
  - split; [discriminate | intros [H _]; lra].
  - destruct (Rlt_dec (- e2) E) as [Hin | Hout].
    + split; [discriminate | intros [_ H]; lra].
    + split; [intros _; lra | reflexivity].
Qed.

(** X21: when the metadata of the run is a mapping, which is what a
    [system] describes, the dispatch can only fail with [KeyError], and
    only for a path that contains neither keyword: with [linear] or
    [quadratic] in the path the metadata is not read at all. *)
Theorem dispatch_fails_only_on_missing_key base (s : system) (e : exn) :
  exact_density_of_states base s = Raise e ->
  e = KeyError /\
  Str.contains "linear" base = false /\
  Str.contains "quadratic" base = false.
Proof.
  unfold exact_density_of_states, get_kind, get_param.
  destruct (Str.contains "linear" base); [discriminate |].
  destruct (Str.contains "quadratic" base); [discriminate |].
  intros H. split; [| split; reflexivity].
  destruct (kind s) as [k |]; [| injection H as <-; reflexivity].
  rewrite bind_Ok in H.
  repeat match type of H with
         | (if ?c then _ else _) = _ => destruct c
         | context [params s !! ?key] => destruct (params s !! key)
         | (Ok _ ≫= _) = _ => rewrite bind_Ok in H
         | (Raise _ ≫= _) = _ => rewrite bind_Raise in H
         | Raise _ = Raise _ => injection H as <-
         | Ok _ = Raise _ => discriminate H
         end; reflexivity.
Qed.

Lemma dispatch_fails_only_on_missing_key_witness :
  KeyError = KeyError /\
  Str.contains "linear" "runs/a" = false /\
  Str.contains "quadratic" "runs/a" = false.
Proof.
  apply (dispatch_fails_only_on_missing_key "runs/a"
           (mk_system (Some "Gaussian"%string) ∅) KeyError).
  reflexivity.
Defined.

(** X26: for a path without keyword and a kind that is none of
    [Gaussian], [Erfinv], [Pieces], the dispatch selects the fallback and
    the exact entropy computed from it is [-inf] at every energy. *)
Theorem unrecognized_kind_entropy_is_minus_infinity base (s : system) k (E : npfloat) :
  Str.contains "linear" base = false ->
  Str.contains "quadratic" base = false ->
  kind s = Some k ->
  k <> "Gaussian"%string -> k <> "Erfinv"%string -> k <> "Pieces"%string ->
  exists f,
    exact_density_of_states base s = Ok f /\
    exact_entropy f E = Some NInf.
Proof.
  intros Hl Hq Hk HG HE HP. exists Other.
  split; [apply (unrecognized_kind_selects_other base s k); assumption |].
  unfold exact_entropy, call, other_density_of_states, option_map.
  rewrite NpFacts.log_zero. reflexivity.
Qed.

Lemma unrecognized_kind_entropy_is_minus_infinity_witness :
  exists f,
    exact_density_of_states "runs/a" (mk_system (Some "Ising"%string) ∅) = Ok f /\
    exact_entropy f (Fin 0.5) = Some NInf.
Proof.
  apply (unrecognized_kind_entropy_is_minus_infinity "runs/a"
           (mk_system (Some "Ising"%string) ∅) "Ising" (Fin 0.5));
    (reflexivity || discriminate).
Defined.

End ReferenceProperties.

(** ** More on the checkpoint loop *)

Module TextOrder.

(** The order of [str] is transitive. *)
Lemma ascii_compare_trans a b c o :
  Ascii.compare a b = o -> Ascii.compare b c = o -> o <> Eq ->
  Ascii.compare a c = o.
Proof.
  unfold Ascii.compare. intros Hab Hbc Ho.
  destruct o; [congruence | |].
  - exact (N.lt_trans _ _ _ Hab Hbc).
  - rewrite N.compare_gt_iff in Hab, Hbc |- *.
    exact (N.lt_trans _ _ _ Hbc Hab).
Qed.

Lemma compare_not_Gt_trans (s : string) : forall t u,
  String.compare s t <> Gt -> String.compare t u <> Gt -> String.compare s u <> Gt.
Proof.
  induction s as [| a s IH]; intros [| b t] [| c u]; simpl; try congruence.
  destruct (Ascii.compare a b) eqn:Hab.
  - apply Ascii.compare_eq_iff in Hab. subst b.
    destruct (Ascii.compare a c); [apply IH | congruence | congruence].
  - destruct (Ascii.compare b c) eqn:Hbc.
    + apply Ascii.compare_eq_iff in Hbc. subst c. rewrite Hab. congruence.
    + rewrite (ascii_compare_trans a b c Lt Hab Hbc) by congruence. congruence.
    + congruence.
  - congruence.
Qed.

Lemma leb_not_Gt s t : String.leb s t = true <-> String.compare s t <> Gt.
Proof. unfold String.leb. destruct (String.compare s t); split; congruence. Qed.

Lemma leb_transitive : Transitive (fun x y => String.leb x y = true).
Proof.
  intros s t u Hst Htu. apply leb_not_Gt.
  apply (compare_not_Gt_trans s t u); apply leb_not_Gt; assumption.
Qed.

Lemma leb_antisymmetric : AntiSymm (=) (fun x y => String.leb x y = true).
Proof. intros s t. apply String.leb_antisym. Qed.

(** Hence [sorted] forgets the order of its argument. *)
Lemma sorted_of_permutation (l1 l2 : list string) :
  Permutation l1 l2 -> Str.sorted l1 = Str.sorted l2.
Proof.
  intros Hperm.
  apply (@Sorted_unique string (fun x y => String.leb x y = true)
           leb_transitive leb_antisymmetric);
    [apply sorted_in_text_order | apply sorted_in_text_order |].
  rewrite <- (sorted_permutes l1), <- (sorted_permutes l2). exact Hperm.
Qed.

End TextOrder.

Section TrackerSeries.

Variable max_error : string -> result npfloat.

(** X22: the series does not depend on the order in which the glob found
    the checkpoint files: any rearrangement of the same files gives the
    same move counts and errors, or the same exception. *)
Theorem series_ignores_glob_order (found found' : list string) :
  Permutation found found' ->
  convergence_series max_error found = convergence_series max_error found'.
Proof.
  intros Hperm. unfold convergence_series.
  rewrite (TextOrder.sorted_of_permutation found found' Hperm). reflexivity.
Qed.

(** The loop appends one move count and one error per file. *)
Lemma series_loop_lengths (files : list string) :
  forall (moves0 error0 moves error : list npfloat),
  for_in files
    (fun f '(moves, error) =>
       let f := Str.splitext_root f in
       mymove ← Str.float (Str.basename f);
       let moves := moves ++ [mymove] in
       e ← max_error f;
       Ok (moves, error ++ [e]))
    (moves0, error0) = Ok (moves, error) ->
  length moves = (length moves0 + length files)%nat /\
  length error = (length error0 + length files)%nat.
Proof.
  induction files as [| f files IH]; intros moves0 error0 moves error H.
  - injection H as <- <-. simpl. lia.
  - cbn [for_in] in H. apply bind_Ok_inv in H as ([m1 e1] & Hstep & Hrest).
    apply bind_Ok_inv in Hstep as (mymove & _ & Hstep).
    apply bind_Ok_inv in Hstep as (e & _ & Hstep).
    injection Hstep as <- <-.
    apply IH in Hrest as [Hm He].
    rewrite length_app in Hm, He. cbn [length] in *. lia.
Qed.

(** X23: a series that is returned has one move count and one error for
    each checkpoint file found. *)
Theorem series_has_one_entry_per_file (found : list string)
    (moves error : list npfloat) :
  convergence_series max_error found = Ok (moves, error) ->
  length moves = length found /\ length error = length found.
Proof.
  unfold convergence_series. intros H.
  apply series_loop_lengths in H as [Hm He].
  pose proof (Permutation_length (sorted_permutes found)) as Hlen.
  cbn [length] in *. lia.
Qed.

End TrackerSeries.

Lemma series_ignores_glob_order_witness :
  convergence_series (fun _ => Ok (Fin 0)) ["run/5.cbor"; "run/20.cbor"]%string
  = convergence_series (fun _ => Ok (Fin 0)) ["run/20.cbor"; "run/5.cbor"]%string.
Proof.
  apply (series_ignores_glob_order (fun _ => Ok (Fin 0))
           ["run/5.cbor"; "run/20.cbor"]%string ["run/20.cbor"; "run/5.cbor"]%string).
  apply perm_swap.
Defined.

Lemma series_has_one_entry_per_file_witness :
  length [Fin 20; Fin 5] = length ["run/5.cbor"; "run/20.cbor"]%string /\
  length [Fin 0; Fin 0] = length ["run/5.cbor"; "run/20.cbor"]%string.
Proof.
  apply (series_has_one_entry_per_file (fun _ => Ok (Fin 0))
           ["run/5.cbor"; "run/20.cbor"]%string [Fin 20; Fin 5] [Fin 0; Fin 0]).
  reflexivity.
Defined.

(** ** From a checkpoint path to its move count *)

Module PathFacts.

Lemma rfind_from_cons c a (s : string) i last :
  Str.rfind_from c (String a s) i last =
  Str.rfind_from c s (i + 1) (if Ascii.eqb a c then i else last).
Proof. reflexivity. Qed.

Lemma rfind_from_app c (s t : string) : forall i last,
  Str.rfind_from c (s +:+ t) i last =
  Str.rfind_from c t (i + Z.of_nat (String.length s)) (Str.rfind_from c s i last).
Proof.
  induction s as [| a s IH]; intros i last.
  - change ("" +:+ t) with t. cbn [String.length Str.rfind_from]. f_equal. lia.
  - change (String a s +:+ t) with (String a (s +:+ t)).
    rewrite !rfind_from_cons, IH. cbn [String.length]. f_equal. lia.
Qed.

Lemma rfind_from_absent c (t : string) : forall i last,
  List.Forall (fun a => a <> c) (Str.chars t) ->
  Str.rfind_from c t i last = last.
Proof.
  induction t as [| a t IH]; intros i last Hall; [reflexivity |].
  unfold Str.chars in Hall. cbn [list_ascii_of_string] in Hall.
  apply List.Forall_cons_iff in Hall as [Ha Hall].
  cbn [Str.rfind_from]. apply Ascii.eqb_neq in Ha. rewrite Ha.
  apply IH. exact Hall.
Qed.

Lemma rfind_from_hit c (t : string) i last :
  Str.rfind_from c (String c t) i last = Str.rfind_from c t (i + 1) i.
Proof. cbn [Str.rfind_from]. rewrite Ascii.eqb_refl. reflexivity. Qed.

Lemma take_app_at {A} (l1 l2 : list A) n : n = length l1 -> take n (l1 ++ l2) = l1.
Proof. intros ->. apply take_app_length. Qed.

Lemma drop_app_at {A} (l1 l2 : list A) n : n = length l1 -> drop n (l1 ++ l2) = l2.
Proof. intros ->. apply drop_app_length. Qed.

Lemma chars_cons a (s : string) : Str.chars (String a s) = a :: Str.chars s.
Proof. reflexivity. Qed.

(** The last separator of [dir/name] when [name] has none. *)
Lemma rfind_separator (dir name : string) :
  List.Forall (fun a => a <> "/"%char) (Str.chars name) ->
  Str.rfind "/" (dir +:+ String "/" name) = Z.of_nat (String.length dir).
Proof.
  intros Hname. unfold Str.rfind.
  rewrite rfind_from_app, rfind_from_hit.
  apply rfind_from_absent. exact Hname.
Qed.

(** The stem and the name of a checkpoint path. *)
Lemma stem_and_name (dir name : string) :
  List.Forall (fun a => a <> "/"%char) (Str.chars name) ->
  List.Exists (fun a => a <> "."%char) (Str.chars name) ->
  Str.splitext_root (dir +:+ String "/" (name +:+ ".cbor")) = dir +:+ String "/" name /\
  Str.basename (dir +:+ String "/" name) = name.
Proof.
  intros Hsep Hdot.
  assert (forall s t, Str.chars (s +:+ t) = Str.chars s ++ Str.chars t) as Happ
    by apply StrFacts.chars_app.
  assert (Str.rfind "/" (dir +:+ String "/" (name +:+ ".cbor"))
          = Z.of_nat (String.length dir)) as Hslash.
  { apply rfind_separator. rewrite Happ. apply List.Forall_app. split; [exact Hsep |].
    repeat constructor; discriminate. }
  assert (Str.rfind "." (dir +:+ String "/" (name +:+ ".cbor"))
          = Z.of_nat (String.length dir) + 1 + Z.of_nat (String.length name))%Z as Hlastdot.
  { unfold Str.rfind. rewrite rfind_from_app.
    cbn [Str.rfind_from]. change (Ascii.eqb "/" ".") with false. cbv iota.
    rewrite rfind_from_app.
    change ".cbor"%string with (String "." "cbor").
    rewrite rfind_from_hit.
    apply rfind_from_absent. repeat constructor; discriminate. }
  split.
  - unfold Str.splitext_root. rewrite Hslash, Hlastdot.
    rewrite decide_True by lia.
    assert (Str.chars (dir +:+ String "/" (name +:+ ".cbor"))
            = (Str.chars dir ++ "/"%char :: Str.chars name) ++ Str.chars ".cbor") as Hchars.
    { rewrite Happ, chars_cons, Happ, <- app_assoc. reflexivity. }
    assert (take (Z.to_nat (Z.of_nat (String.length dir) + 1 + Z.of_nat (String.length name)))
              (Str.chars (dir +:+ String "/" (name +:+ ".cbor")))
            = Str.chars dir ++ "/"%char :: Str.chars name) as Htake.
    { rewrite Hchars. apply take_app_at.
      rewrite length_app. cbn [length]. rewrite !StrFacts.length_chars. lia. }
    rewrite Htake.
    replace (drop (Z.to_nat (Z.of_nat (String.length dir) + 1))
               (Str.chars dir ++ "/"%char :: Str.chars name))
      with (Str.chars name).
    + replace (existsb (fun a => negb (Ascii.eqb a ".")) (Str.chars name)) with true.
      * unfold Str.upto. rewrite Htake.
        rewrite <- chars_cons, <- Happ. apply StrFacts.of_chars_chars.
      * symmetry. apply existsb_exists. apply List.Exists_exists in Hdot as (a & Hin & Ha).
        exists a. split; [exact Hin |]. apply Ascii.eqb_neq in Ha. rewrite Ha. reflexivity.
    + symmetry.
      change (Str.chars dir ++ "/"%char :: Str.chars name)
        with (Str.chars dir ++ ["/"%char] ++ Str.chars name).
      rewrite app_assoc. apply drop_app_at.
      rewrite length_app. cbn [length]. rewrite StrFacts.length_chars. lia.
  - unfold Str.basename, Str.from.
    rewrite rfind_separator by exact Hsep.
    rewrite Happ, chars_cons.
    change (Str.chars dir ++ "/"%char :: Str.chars name)
      with (Str.chars dir ++ ["/"%char] ++ Str.chars name).
    rewrite app_assoc, drop_app_at.
    + apply StrFacts.of_chars_chars.
    + rewrite length_app. cbn [length]. rewrite StrFacts.length_chars. lia.
Qed.

End PathFacts.

(** X24: for a checkpoint file [dir/name.cbor] whose [name] holds no
    separator and at least one character that is not a dot, the stem the
    loop works with is [dir/name] and the text it parses as the move count
    is [name]; dots or separators in [dir] do not matter. *)
Theorem checkpoint_path_gives_name (dir name : string) :
  List.Forall (fun a => a <> "/"%char) (Str.chars name) ->
  List.Exists (fun a => a <> "."%char) (Str.chars name) ->
  Str.splitext_root (dir +:+ String "/" (name +:+ ".cbor")) = dir +:+ String "/" name /\
  Str.basename (dir +:+ String "/" name) = name.
Proof. apply PathFacts.stem_and_name. Qed.

Lemma checkpoint_path_gives_name_witness :
  Str.splitext_root ("run.d" +:+ String "/" ("1.5e3" +:+ ".cbor")) = "run.d" +:+ String "/" "1.5e3" /\
  Str.basename ("run.d" +:+ String "/" "1.5e3") = "1.5e3"%string.
Proof.
  apply (checkpoint_path_gives_name "run.d" "1.5e3").
  - repeat constructor; discriminate.
  - constructor. discriminate.
Defined.

(** ** Checkpoint names of equal width *)

Module DigitFacts.

Lemma digit_value_range a d :
  Str.digit_value a = Some d -> (d = N_of_ascii a - 48 /\ 48 <= N_of_ascii a <= 57)%N.
Proof.
  unfold Str.digit_value. intros H.
  destruct (48 <=? N_of_ascii a)%N eqn:Hlo; [| discriminate].
  destruct (N_of_ascii a <=? 57)%N eqn:Hhi; [| discriminate].
  injection H as <-. apply N.leb_le in Hlo, Hhi. lia.
Qed.

Lemma all_digits_cons a s : all_digits (String a s) <-> Str.digit_value a <> None /\ all_digits s.
Proof. unfold all_digits. apply List.Forall_cons_iff. Qed.

(** Reading [s] after [acc]: the digits of [s] are appended to [acc], and
    what they add is below [10 ^ length s]. *)
Lemma decimal_value_digits (s : string) : forall acc,
  all_digits s ->
  Str.decimal_value s acc = Some (acc * 10 ^ N.of_nat (String.length s) + move_count s)%N /\
  (move_count s < 10 ^ N.of_nat (String.length s))%N.
Proof.
  induction s as [| a s IH]; intros acc Hs.
  - unfold move_count. simpl. split; [f_equal; lia | lia].
  - apply all_digits_cons in Hs as [Ha Hs].
    destruct (Str.digit_value a) as [d |] eqn:Hd; [| congruence].
    apply digit_value_range in Hd as Hrange.
    assert (move_count (String a s) = d * 10 ^ N.of_nat (String.length s) + move_count s)%N
      as Hval.
    { unfold move_count at 1. cbn [Str.decimal_value]. rewrite Hd.
      destruct (IH (10 * 0 + d)%N Hs) as [-> _]. unfold default, Datatypes.id. lia. }
    destruct (IH (10 * acc + d)%N Hs) as [Heq Hlt].
    cbn [Str.decimal_value String.length]. rewrite Hd, Heq, Hval.
    rewrite Nat2N.inj_succ, N.pow_succ_r'.
    split; [f_equal; lia | nia].
Qed.

Lemma move_count_cons a d (s : string) :
  all_digits s -> Str.digit_value a = Some d ->
  (move_count (String a s) = d * 10 ^ N.of_nat (String.length s) + move_count s)%N.
Proof.
  intros Hs Hd. unfold move_count at 1. cbn [Str.decimal_value]. rewrite Hd.
  destruct (decimal_value_digits s (10 * 0 + d)%N Hs) as [-> _].
  unfold default, Datatypes.id. lia.
Qed.

(** For names of equal width the order of [str] is the order of the
    numbers. *)
Lemma text_order_is_numeric (s : string) : forall t,
  all_digits s -> all_digits t ->
  String.length s = String.length t ->
  String.leb s t = true ->
  (move_count s <= move_count t)%N.
Proof.
  induction s as [| a s IH]; intros [| b t] Hs Ht Hlen Hle;
    [reflexivity | discriminate | discriminate |].
  injection Hlen as Hlen.
  apply all_digits_cons in Hs as [Ha Hs]. apply all_digits_cons in Ht as [Hb Ht].
  destruct (Str.digit_value a) as [da |] eqn:Hda; [| congruence].
  destruct (Str.digit_value b) as [db |] eqn:Hdb; [| congruence].
  rewrite (move_count_cons a da s Hs Hda), (move_count_cons b db t Ht Hdb).
  destruct (decimal_value_digits s 0 Hs) as [_ Hs2].
  destruct (decimal_value_digits t 0 Ht) as [_ Ht2].
  apply digit_value_range in Hda as [-> Hra]. apply digit_value_range in Hdb as [-> Hrb].
  rewrite Hlen in Hs2 |- *.
  unfold String.leb in Hle. cbn [String.compare] in Hle.
  unfold Ascii.compare in Hle.
  destruct (N.compare_spec (N_of_ascii a) (N_of_ascii b)) as [Heq | Hlt | Hgt].
  - assert (move_count s <= move_count t)%N as Hrec.
    { apply IH; [exact Hs | exact Ht | exact Hlen |]. unfold String.leb. exact Hle. }
    rewrite Heq. nia.
  - nia.
  - discriminate.
Qed.

(** A digit is neither a separator nor a dot. *)
Lemma digit_not_separator a : Str.digit_value a <> None -> a <> "/"%char /\ a <> "."%char.
Proof. intros H. split; intros ->; apply H; reflexivity. Qed.

Lemma float_of_digits (name : string) :
  all_digits name -> name <> ""%string ->
  Str.float name = Ok (Fin (IZR (Z.of_N (move_count name)))).
Proof.
  intros Hd Hne. unfold Str.float. destruct name as [| a s]; [congruence |].
  destruct (decimal_value_digits _ 0 Hd) as [-> _].
  do 3 f_equal; lia.
Qed.

End DigitFacts.

Module PaddedNames.

Lemma compare_refl (s : string) : String.compare s s = Eq.
Proof.
  induction s as [| a s IH]; [reflexivity |].
  cbn [String.compare]. unfold Ascii.compare. rewrite N.compare_refl. exact IH.
Qed.

Lemma compare_common_prefix (pre x y : string) :
  String.compare (pre +:+ x) (pre +:+ y) = String.compare x y.
Proof.
  induction pre as [| a pre IH]; [reflexivity |].
  change (String.compare (String a (pre +:+ x)) (String a (pre +:+ y)) = String.compare x y).
  cbn [String.compare]. unfold Ascii.compare. rewrite N.compare_refl. exact IH.
Qed.

Lemma compare_common_suffix (e s : string) : forall t,
  String.length s = String.length t ->
  String.compare (s +:+ e) (t +:+ e) = String.compare s t.
Proof.
  induction s as [| a s IH]; intros [| b t] Hlen; try discriminate.
  - apply compare_refl.
  - injection Hlen as Hlen.
    change (String.compare (String a (s +:+ e)) (String b (t +:+ e))
            = String.compare (String a s) (String b t)).
    cbn [String.compare]. rewrite (IH t Hlen). reflexivity.
Qed.

(** Between names of equal width, the paths compare as the names do. *)
Lemma leb_checkpoint_path dir (s t : string) :
  String.length s = String.length t ->
  String.leb (checkpoint_path dir s) (checkpoint_path dir t) = String.leb s t.
Proof.
  intros Hlen. unfold String.leb, checkpoint_path.
  rewrite compare_common_prefix.
  cbn [String.compare]. change (Ascii.compare "/" "/") with Eq. cbv iota.
  rewrite compare_common_suffix by exact Hlen. reflexivity.
Qed.

Lemma insert_map (f : string -> string) s (l : list string) :
  (forall t, In t l -> String.leb (f s) (f t) = String.leb s t) ->
  Str.insert (f s) (map f l) = map f (Str.insert s l).
Proof.
  induction l as [| h l IH]; intros H; [reflexivity |].
  cbn [map Str.insert]. rewrite (H h (or_introl eq_refl)).
  destruct (String.leb s h); [reflexivity |].
  cbn [map]. rewrite IH; [reflexivity |].
  intros t Ht. apply H. right. exact Ht.
Qed.

Lemma sorted_map (f : string -> string) (l : list string) :
  (forall s t, In s l -> In t l -> String.leb (f s) (f t) = String.leb s t) ->
  Str.sorted (map f l) = map f (Str.sorted l).
Proof.
  induction l as [| a l IH]; intros H; [reflexivity |].
  change (Str.insert (f a) (Str.sorted (map f l)) = map f (Str.insert a (Str.sorted l))).
  rewrite IH by (intros s t Hs Ht; apply H; right; assumption).
  apply insert_map. intros t Ht. apply H; [left; reflexivity | right].
  apply (Permutation_in t (Permutation_sym (sorted_permutes l))). exact Ht.
Qed.

Lemma sorted_map_order {A B} (R : A -> A -> Prop) (R' : B -> B -> Prop) (f : A -> B)
    (P : A -> Prop) (l : list A) :
  (forall x y, P x -> P y -> R x y -> R' (f x) (f y)) ->
  List.Forall P l -> Sorted R l -> Sorted R' (map f l).
Proof.
  intros Hmono Hall Hsorted. induction Hsorted as [| a l Hs IH Hhd]; [constructor |].
  apply List.Forall_cons_iff in Hall as [Ha Hall].
  cbn [map]. constructor; [apply IH; exact Hall |].
  destruct Hhd as [| b l Hab]; [constructor |].
  cbn [map]. constructor. apply List.Forall_cons_iff in Hall as [Hb _].
  apply Hmono; assumption.
Qed.

End PaddedNames.

Section PaddedSeries.

Variable max_error : string -> result npfloat.

(** The loop on the checkpoints of digit names: the move counts come out
    in the order of the list. *)
Lemma series_loop_on_names dir (names : list string) :
  forall (moves0 error0 moves error : list npfloat),
  List.Forall (fun n => all_digits n /\ n <> ""%string) names ->
  for_in (map (checkpoint_path dir) names)
    (fun f '(moves, error) =>
       let f := Str.splitext_root f in
       mymove ← Str.float (Str.basename f);
       let moves := moves ++ [mymove] in
       e ← max_error f;
       Ok (moves, error ++ [e]))
    (moves0, error0) = Ok (moves, error) ->
  moves = moves0 ++ map (fun n => Fin (IZR (Z.of_N (move_count n)))) names.
Proof.
  induction names as [| n names IH]; intros moves0 error0 moves error Hall H.
  - injection H as <- _. rewrite app_nil_r. reflexivity.
  - apply List.Forall_cons_iff in Hall as [[Hd Hne] Hall].
    cbn [map for_in] in H.
    assert (List.Forall (fun a => a <> "/"%char) (Str.chars n)) as Hsep.
    { eapply List.Forall_impl; [| exact Hd].
      intros a Ha. apply (DigitFacts.digit_not_separator a Ha). }
    assert (List.Exists (fun a => a <> "."%char) (Str.chars n)) as Hdot.
    { destruct n as [| a n]; [congruence |].
      apply DigitFacts.all_digits_cons in Hd as [Ha _].
      left. apply (DigitFacts.digit_not_separator a Ha). }
    destruct (PathFacts.stem_and_name dir n Hsep Hdot) as [Hstem Hname].
    change (dir +:+ String "/" (n +:+ ".cbor")) with (checkpoint_path dir n) in Hstem.
    cbv zeta in H. rewrite Hstem, Hname in H.
    rewrite (DigitFacts.float_of_digits n Hd Hne), bind_Ok in H.
    apply bind_Ok_inv in H as ([m1 e1] & Hstep & Hrest).
    apply bind_Ok_inv in Hstep as (e & _ & Hstep). injection Hstep as <- <-.
    apply IH in Hrest; [| exact Hall].
    rewrite Hrest, <- app_assoc. reflexivity.
Qed.

(** X25: when the checkpoint names of a run are decimal numbers all
    written with the same number of digits (padded with zeros), the series
    that is returned has the move counts in ascending numeric order. *)
Theorem padded_checkpoints_in_numeric_order dir (names : list string) (w : nat)
    (moves error : list npfloat) :
  List.Forall (fun n => all_digits n /\ String.length n = S w) names ->
  convergence_series max_error (map (checkpoint_path dir) names) = Ok (moves, error) ->
  moves = map (fun n => Fin (IZR (Z.of_N (move_count n)))) (Str.sorted names) /\
  Sorted N.le (map move_count (Str.sorted names)).
Proof.
  intros Hall H.
  assert (List.Forall (fun n => all_digits n /\ String.length n = S w) (Str.sorted names))
    as Hsorted.
  { apply List.Forall_forall. intros n Hn. rewrite List.Forall_forall in Hall. apply Hall.
    apply (Permutation_in n (Permutation_sym (sorted_permutes names))). exact Hn. }
  split.
  - unfold convergence_series in H.
    rewrite PaddedNames.sorted_map in H.
    + apply series_loop_on_names in H; [exact H |].
      eapply List.Forall_impl; [| exact Hsorted].
      intros n [Hd Hlen]. split; [exact Hd |]. intros ->. discriminate.
    + intros s t Hs Ht. rewrite List.Forall_forall in Hall.
      apply PaddedNames.leb_checkpoint_path.
      destruct (Hall s Hs) as [_ ->]. destruct (Hall t Ht) as [_ ->]. reflexivity.
  - apply (PaddedNames.sorted_map_order (fun x y => String.leb x y = true) N.le move_count
             (fun n => all_digits n /\ String.length n = S w)).
    + intros s t [Hs Hls] [Ht Hlt] Hle.
      apply DigitFacts.text_order_is_numeric; [assumption | assumption | congruence | exact Hle].
    + exact Hsorted.
    + apply sorted_in_text_order.
Qed.

End PaddedSeries.

Lemma padded_checkpoints_in_numeric_order_witness :
  [Fin 5; Fin 20; Fin 100]
    = map (fun n => Fin (IZR (Z.of_N (move_count n))))
        (Str.sorted ["100"; "005"; "020"]%string) /\
  Sorted N.le (map move_count (Str.sorted ["100"; "005"; "020"]%string)).
Proof.
  apply (padded_checkpoints_in_numeric_order (fun _ => Ok (Fin 0)) "run"
           ["100"; "005"; "020"]%string 2 [Fin 5; Fin 20; Fin 100] [Fin 0; Fin 0; Fin 0]).
  - repeat constructor; discriminate.
  - reflexivity.
Defined.
